(** * SW-WCD research harness: cache-status interpreter, outcome
      classification, safety monitor, scenario validation and p-value lookup.

    A shallow embedding of the JavaScript sources:
    - [TestUtils.normalizeHeaders], [TestUtils.parseCDNCacheStatus]
      (tests/utils.js),
    - [Trial.containsVictimData], [Trial.attackSuccess] and the per-strategy
      assertion of the trial body (tests/attack.spec.js),
    - [AnomalyDetector.checkExternalDomains],
      [AnomalyDetector.checkUnexpectedSuccesses] (monitoring/anomaly-detector.js),
    - [Config.validateTestParams] (tests/config.js),
    - [Stats.calculatePValue] (analysis/statistical-engine.js),
    - [ResponseSafety.validateResponseSafety], [Marker.extractMarkerFromBody]
      (tests/utils.js),
    - the detector's other checks, its pass and its summary in [Monitor]
      (monitoring/anomaly-detector.js), [RequestLogger]
      (monitoring/request-logger.js),
    - the strategies, the session check and the log rows of the origin in
      [Origin] (origin/strategies.js, origin/server.js),
    - the checks that open a trial and the CDN table in [Harness]
      (tests/attack.spec.js, tests/config.js), the report's significance
      test and mitigations in [Report] (analysis/statistical-engine.js).

    JavaScript values are modelled with their own truthiness, [typeof] and
    short-circuit operators, so that a value such as [null] is not silently
    read as [false]. *)

From Stdlib Require Import String Ascii List ZArith Bool Lia Floats.
From Stdlib Require Import DecimalString.
Import ListNotations.
Local Open Scope string_scope.
Local Set Warnings "-register-all".

(* ================================================================= *)
(** ** JavaScript values *)

Module Js.

(** Data values.  An object is the list of its own enumerable properties in
    the order [Object.keys] enumerates them; its prototype is
    [Object.prototype]. *)
Inductive value : Type :=
| VUndefined
| VNull
| VBool (b : bool)
| VNum (n : float)
| VStr (s : string)
| VObj (fields : list (string * value)).

Definition typeof (v : value) : string :=
  match v with
  | VUndefined => "undefined"
  | VNull => "object"
  | VBool _ => "boolean"
  | VNum _ => "number"
  | VStr _ => "string"
  | VObj _ => "object"
  end.

(** ToBoolean. *)
Definition truthy (v : value) : bool :=
  match v with
  | VUndefined | VNull => false
  | VBool b => b
  | VNum n => negb (PrimFloat.is_zero n || PrimFloat.is_nan n)
  | VStr s => negb (s =? "")
  | VObj _ => true
  end.

(** [a || b] and [a && b] return one of their operands. *)
Definition or (a b : value) : value := if truthy a then a else b.
Definition and (a b : value) : value := if truthy a then b else a.

(** [v === 'lit'] for a string literal. *)
Definition strict_eq_str (v : value) (lit : string) : bool :=
  match v with
  | VStr s => s =? lit
  | _ => false
  end.

(** Own-property lookup. *)
Fixpoint own (fields : list (string * value)) (k : string) : option value :=
  match fields with
  | [] => None
  | (k', v) :: rest => if k' =? k then Some v else own rest k
  end.

(** [o.k] for a property name [k] that [Object.prototype] does not define
    (status, raw, hit, miss, ...): the own property, else [undefined]. *)
Definition get (o : value) (k : string) : value :=
  match o with
  | VObj fields => match own fields k with Some v => v | None => VUndefined end
  | _ => VUndefined
  end.

(** The property names every plain object inherits from [Object.prototype];
    each of them reads as a function or, for [__proto__], as the prototype
    object itself: all truthy. *)
Definition Object_prototype_keys : list string :=
  [ "constructor"; "__defineGetter__"; "__defineSetter__"; "hasOwnProperty";
    "__lookupGetter__"; "__lookupSetter__"; "isPrototypeOf";
    "propertyIsEnumerable"; "toString"; "valueOf"; "__proto__";
    "toLocaleString" ].

(** [String.prototype.toLowerCase] on ASCII text (header names are HTTP
    tokens). *)
Definition lower_ascii (c : ascii) : ascii :=
  let n := nat_of_ascii c in
  if (65 <=? n)%nat && (n <=? 90)%nat then ascii_of_nat (n + 32) else c.

Fixpoint toLowerCase (s : string) : string :=
  match s with
  | EmptyString => EmptyString
  | String c rest => String (lower_ascii c) (toLowerCase rest)
  end.

(** [s.includes(needle)]. *)
Fixpoint includes (s needle : string) : bool :=
  if prefix needle s then true
  else match s with
       | EmptyString => false
       | String _ rest => includes rest needle
       end.

(** [Array.prototype.join]. *)
Fixpoint join (sep : string) (xs : list string) : string :=
  match xs with
  | [] => ""
  | [x] => x
  | x :: rest => x ++ sep ++ join sep rest
  end.

(** Outcome of a statement block that may throw. *)
Inductive completion (A : Type) : Type :=
| Normal (a : A)
| Throw (message : string).
Arguments Normal {A} a.
Arguments Throw {A} message.

Definition bind {A B} (c : completion A) (k : A -> completion B) : completion B :=
  match c with
  | Normal a => k a
  | Throw m => Throw m
  end.

End Js.

Import Js.
Notation "x <- c ;; k" := (Js.bind c (fun x => k))
  (at level 61, c at next level, right associativity).

(* ================================================================= *)
(** ** tests/utils.js: the cache-status interpreter *)

Module TestUtils.

(** What [normalized.__proto__] points to.  [normalized] starts as [{}]. *)
Inductive proto_link : Type :=
| ProtoDefault
| ProtoNull
| ProtoObj (fields : list (string * value)).

(** The object [normalizeHeaders] builds. *)
Record headers := mkHeaders {
  own_props : list (string * value);
  proto : proto_link
}.

Definition empty : headers := mkHeaders [] ProtoDefault.

Fixpoint set_own (fields : list (string * value)) (k : string) (v : value)
  : list (string * value) :=
  match fields with
  | [] => [(k, v)]
  | (k', v') :: rest =>
      if k' =? k then (k', v) :: rest else (k', v') :: set_own rest k v
  end.

(** [normalized[k] = v].  The name [__proto__] reaches the accessor of
    [Object.prototype]: an object or [null] replaces the prototype, any other
    value is dropped; no own property is created. *)
Definition set_prop (n : headers) (k : string) (v : value) : headers :=
  if k =? "__proto__" then
    match v with
    | VObj o => mkHeaders (own_props n) (ProtoObj o)
    | VNull => mkHeaders (own_props n) ProtoNull
    | _ => n
    end
  else mkHeaders (set_own (own_props n) k v) (proto n).

(** [headers[k]] for a signal-header name [k] (none of them is a property of
    [Object.prototype]): own property first, then the prototype. *)
Definition lookup (n : headers) (k : string) : value :=
  match own (own_props n) k with
  | Some v => v
  | None =>
      match proto n with
      | ProtoObj o => match own o k with Some v => v | None => VUndefined end
      | ProtoNull | ProtoDefault => VUndefined
      end
  end.

Definition normalizeHeaders (rawHeaders : value) : headers :=
  if negb (truthy rawHeaders) || negb (typeof rawHeaders =? "object") then empty
  else
    match rawHeaders with
    | VObj fields =>
        fold_left
          (fun normalized key =>
             set_prop normalized (toLowerCase key) (get rawHeaders key))
          (map fst fields) empty
    | _ => empty
    end.

(** [x?.includes(needle)]: [undefined] on a nullish receiver, the substring
    test on a string, a TypeError on any other data value (it has no
    [includes] method). *)
Definition optional_includes (name : string) (x : value) (needle : string)
  : completion value :=
  match x with
  | VUndefined | VNull => Normal VUndefined
  | VStr s => Normal (VBool (includes s needle))
  | _ => Throw (name ++ "?.includes is not a function")
  end.

Definition parseCDNCacheStatus (rawHeaders : value) (cdn : string) : value :=
  if negb (truthy rawHeaders) || negb (typeof rawHeaders =? "object") then
    VObj [ ("status", VStr "INVALID_HEADERS"); ("raw", VNull);
           ("error", VStr "Headers not provided") ]
  else
    let headers := normalizeHeaders rawHeaders in
    let try : completion value :=
      if cdn =? "cloudflare" then
        let cfStatus := lookup headers "cf-cache-status" in
        Normal (VObj [ ("status", Js.or cfStatus (VStr "MISSING_HEADER"));
                       ("raw", cfStatus);
                       ("hit", VBool (strict_eq_str cfStatus "HIT"));
                       ("miss", VBool (strict_eq_str cfStatus "MISS"));
                       ("dynamic", VBool (strict_eq_str cfStatus "DYNAMIC")) ])
      else if cdn =? "fastly" then
        let xCache := lookup headers "x-cache" in
        hit <- optional_includes "xCache" xCache "HIT" ;;
        miss <- optional_includes "xCache" xCache "MISS" ;;
        Normal (VObj [ ("status", Js.or xCache (VStr "MISSING_HEADER"));
                       ("raw", xCache);
                       ("hit", Js.or hit (VBool false));
                       ("miss", Js.or miss (VBool false));
                       ("unknown", VBool (negb (truthy xCache))) ])
      else if cdn =? "cloudfront" then
        let cfCache := lookup headers "x-cache" in
        hit <- optional_includes "cfCache" cfCache "Hit" ;;
        miss <- optional_includes "cfCache" cfCache "Miss" ;;
        error <- optional_includes "cfCache" cfCache "Error" ;;
        Normal (VObj [ ("status", Js.or cfCache (VStr "MISSING_HEADER"));
                       ("raw", cfCache);
                       ("hit", Js.or hit (VBool false));
                       ("miss", Js.or miss (VBool false));
                       ("error", Js.or error (VBool false)) ])
      else if cdn =? "local" then
        let localStatus := lookup headers "x-cache-status" in
        Normal (VObj [ ("status", Js.or localStatus (VStr "MISSING_HEADER"));
                       ("raw", localStatus);
                       ("hit", VBool (strict_eq_str localStatus "HIT"));
                       ("miss", VBool (strict_eq_str localStatus "MISS"));
                       ("bypass", VBool (strict_eq_str localStatus "BYPASS")) ])
      else
        Normal (VObj [ ("status", VStr "UNSUPPORTED_CDN"); ("raw", VNull);
                       ("error", VStr ("Unsupported CDN: " ++ cdn)) ])
    in
    match try with
    | Normal result => result
    | Throw message =>
        VObj [ ("status", VStr "PARSE_ERROR"); ("raw", VNull);
               ("error", VStr message) ]
    end.

End TestUtils.

(* ================================================================= *)
(** ** tests/attack.spec.js: classification of one trial *)

Module Trial.

(** [extractMarkerFromBody] returns [null] or a string. *)
Definition marker_value (victimMarker : option string) : value :=
  match victimMarker with
  | None => VNull
  | Some m => VStr m
  end.

(** [victimMarker && attackerBody.includes(victimMarker)]; the right operand
    is evaluated only for a truthy marker. *)
Definition containsVictimData (victimMarker : option string)
  (attackerBody : string) : value :=
  match victimMarker with
  | None => VNull
  | Some m => Js.and (VStr m) (VBool (includes attackerBody m))
  end.

(** [cacheStatus.hit && containsVictimData]. *)
Definition attackSuccess (cacheStatus containsVictimData : value) : value :=
  Js.and (get cacheStatus "hit") containsVictimData.

(** The [attack_outcome] object of the trial record (the fields the
    classification decides). *)
Record attack_outcome := mkOutcome {
  success : value;
  cache_hit : value;
  victim_data_retrieved : value;
  victim_marker : value
}.

Definition classify (attackerHeaders : value) (cdn : string)
  (victimMarker : option string) (attackerBody : string) : attack_outcome :=
  let cacheStatus := TestUtils.parseCDNCacheStatus attackerHeaders cdn in
  let containsVictimData := containsVictimData victimMarker attackerBody in
  let attackSuccess := attackSuccess cacheStatus containsVictimData in
  mkOutcome attackSuccess (get cacheStatus "hit") containsVictimData
            (marker_value victimMarker).

(** [expect(actual, message).toBe(false)]: passes when [Object.is(actual,
    false)], throws otherwise. *)
Definition expect_toBe_false (actual : value) (message : string)
  : completion unit :=
  match actual with
  | VBool false => Normal tt
  | _ => Throw message
  end.

(** [expect(actual, message).not.toBe(lit)] for a string literal. *)
Definition expect_not_toBe_str (actual : value) (message lit : string)
  : completion unit :=
  if strict_eq_str actual lit then Throw message else Normal tt.

(** The assertions that close the trial body. *)
Definition assertions (strategy : string) (attackSuccess cacheStatus : value)
  : completion unit :=
  _ <- (if strategy =? "proper"
        then expect_toBe_false attackSuccess
               "Attack should not succeed with proper security headers"
        else Normal tt) ;;
  _ <- expect_not_toBe_str (get cacheStatus "status")
         "Cache status should be valid" "PARSE_ERROR" ;;
  expect_not_toBe_str (get cacheStatus "status")
    "CDN should be supported" "UNSUPPORTED_CDN".

End Trial.

(* ================================================================= *)
(** ** monitoring/anomaly-detector.js *)

Module AnomalyDetector.

Inductive severity : Type := LOW | MEDIUM | HIGH | CRITICAL.

Inductive details : Type :=
| DCount (count : nat)
| DDomains (domains : list (string * nat)).

Record anomaly := mkAnomaly {
  type : string;
  anomaly_severity : severity;
  message : string;
  anomaly_details : details
}.

(** Decimal rendering of a count, as in a template literal. *)
Definition show (n : nat) : string := NilEmpty.string_of_uint (Nat.to_uint n).

(** A row of [origin_logs], as far as the monitor reads it: the timestamp in
    microseconds and [headers->>'host'] ([None] is SQL NULL). *)
Record origin_log := mkLog {
  log_timestamp : Z;
  host : option string
}.

(** A row of [experiments], as far as the monitor reads it;
    [outcome_success] is [(attack_outcome->>'success')::boolean], [None]
    being SQL NULL (a JSON [null]). *)
Record experiment := mkExperiment {
  exp_timestamp : Z;
  origin_header_strategy : string;
  outcome_success : option bool
}.

Definition minute : Z := 60 * 1000000.
Definition hour : Z := 60 * minute.

Definition allowlist : list string :=
  [ "cdn-simulator.local"; "localhost"; "127.0.0.1"; "cf-test.yourdomain.com";
    "fastly-test.yourdomain.com"; "aws-test.yourdomain.com" ].

Definition mem (x : string) (xs : list string) : bool := existsb (String.eqb x) xs.

(** The WHERE clause of [checkExternalDomains]; a NULL host makes
    [NOT IN] unknown, which drops the row. *)
Definition external_in_window (now : Z) (r : origin_log) : option string :=
  match host r with
  | Some h =>
      if (now - 5 * minute <? log_timestamp r)%Z && negb (mem h allowlist)
      then Some h else None
  | None => None
  end.

Fixpoint selected_hosts (now : Z) (logs : list origin_log) : list string :=
  match logs with
  | [] => []
  | r :: rest =>
      match external_in_window now r with
      | Some h => h :: selected_hosts now rest
      | None => selected_hosts now rest
      end
  end.

Definition count_host (h : string) (hs : list string) : nat :=
  length (filter (String.eqb h) hs).

(** GROUP BY host HAVING COUNT( * ) > 1: one row per distinct host, with its
    number of requests (rows listed by first occurrence). *)
Definition external_rows (now : Z) (logs : list origin_log)
  : list (string * nat) :=
  let hs := selected_hosts now logs in
  filter (fun row => (1 <? snd row)%nat)
         (map (fun h => (h, count_host h hs)) (nodup string_dec hs)).

Definition checkExternalDomains (now : Z) (logs : list origin_log)
  : option anomaly :=
  let rows := external_rows now logs in
  if (0 <? length rows)%nat then
    Some (mkAnomaly "EXTERNAL_DOMAIN_CONTACT" CRITICAL
            "Requests to external domains detected" (DDomains rows))
  else None.

(** The WHERE clause of [checkUnexpectedSuccesses]. *)
Definition unexpected (now : Z) (e : experiment) : bool :=
  (now - hour <? exp_timestamp e)%Z
  && (origin_header_strategy e =? "proper")
  && match outcome_success e with Some true => true | _ => false end.

Definition checkUnexpectedSuccesses (now : Z) (experiments : list experiment)
  : option anomaly :=
  let unexpectedSuccesses := length (filter (unexpected now) experiments) in
  if (0 <? unexpectedSuccesses)%nat then
    Some (mkAnomaly "UNEXPECTED_SUCCESS" MEDIUM
            ("Unexpected successful attacks with proper security headers: "
               ++ show unexpectedSuccesses)
            (DCount unexpectedSuccesses))
  else None.

End AnomalyDetector.

(* ================================================================= *)
(** ** tests/config.js: scenario validation *)

Module Config.

(** [Object.keys(TEST_CONFIG.cdns)], [TEST_CONFIG.browsers],
    [Object.keys(TEST_CONFIG.attacks)], [TEST_CONFIG.originStrategies]. *)
Definition cdns_keys : list string :=
  [ "cloudflare"; "fastly"; "cloudfront"; "local" ].
Definition browsers : list string := [ "chromium"; "firefox"; "webkit" ].
Definition attacks_keys : list string :=
  [ "t1-path-sculpting"; "t2-header-manipulation"; "t4-scope-misconfig" ].
Definition originStrategies : list string :=
  [ "proper"; "misconfigured"; "missing"; "conflicting" ].

(** [xs.includes(x)]. *)
Definition mem (x : string) (xs : list string) : bool := existsb (String.eqb x) xs.

(** Truthiness of [table[k]] for an object literal whose own values are all
    objects: an own key, or a name inherited from [Object.prototype]. *)
Definition truthy_entry (own_keys : list string) (k : string) : bool :=
  mem k own_keys || mem k Object_prototype_keys.

Record params := mkParams {
  cdn : string;
  browser : string;
  attack : string;
  strategy : string
}.

Definition newline : string := String (ascii_of_nat 10) "".

Definition invalid (what value : string) (allowed : list string) : string :=
  "Invalid " ++ what ++ ": " ++ value ++ ". Must be one of: " ++ join ", " allowed.

(** [errors.push(e)] when [cond] holds. *)
Definition push_if (cond : bool) (e : string) (errors : list string)
  : list string :=
  if cond then errors ++ [e] else errors.

Definition collect_errors (p : params) : list string :=
  let errors := [] in
  let errors :=
    push_if (negb (truthy_entry cdns_keys (cdn p)))
            (invalid "CDN" (cdn p) cdns_keys) errors in
  let errors :=
    push_if (negb (mem (browser p) browsers))
            (invalid "browser" (browser p) browsers) errors in
  let errors :=
    push_if (negb (truthy_entry attacks_keys (attack p)))
            (invalid "attack" (attack p) attacks_keys) errors in
  let errors :=
    push_if (negb (mem (strategy p) originStrategies))
            (invalid "strategy" (strategy p) originStrategies) errors in
  errors.

Definition validateTestParams (p : params) : completion bool :=
  let errors := collect_errors p in
  if (0 <? length errors)%nat then
    Throw ("Test parameter validation failed:" ++ newline ++ join newline errors)
  else Normal true.

End Config.

(* ================================================================= *)
(** ** analysis/statistical-engine.js: the p-value lookup *)

Module Stats.

Local Open Scope float_scope.
(* The decimal literals denote the nearest doubles, as they do in the source. *)
Local Set Warnings "-inexact-float".

(** [chiSquare] and [df] are JavaScript numbers: IEEE-754 doubles with
    their comparisons ([NaN] compares false with everything). *)
Definition calculatePValue (chiSquare df : float) : float :=
  if (10.828 <? chiSquare) && (df =? 1) then 0.001
  else if (6.635 <? chiSquare) && (df =? 1) then 0.01
  else if (3.841 <? chiSquare) && (df =? 1) then 0.05
  else if (2.706 <? chiSquare) && (df =? 1) then 0.10
  else 0.20.

End Stats.

(* ================================================================= *)
(** ** The rule table of the interpreter, as the specification words it *)

Module Spec.

Inductive rule_kind : Type := Exact | Contains.

Record rule := mkRule {
  vendor : string;
  signal_header : string;
  kind : rule_kind;
  hit_string : string;
  miss_string : string
}.

Definition rule_table : list rule :=
  [ mkRule "cloudflare" "cf-cache-status" Exact "HIT" "MISS";
    mkRule "fastly" "x-cache" Contains "HIT" "MISS";
    mkRule "cloudfront" "x-cache" Contains "Hit" "Miss";
    mkRule "local" "x-cache-status" Exact "HIT" "MISS" ].

Definition rule_matches (k : rule_kind) (pattern v : string) : bool :=
  match k with
  | Exact => v =? pattern
  | Contains => includes v pattern
  end.

Definition supported (cdn : string) : bool :=
  existsb (fun r => vendor r =? cdn) rule_table.

(** A headers argument that is not a header map: [null], [undefined] or a
    value that is not an object. *)
Definition malformed (v : value) : bool :=
  match v with
  | VObj _ => false
  | _ => true
  end.

(** The header map with every key lowercased. *)
Definition lowercase_keys (fields : list (string * value))
  : list (string * value) :=
  map (fun kv => (toLowerCase (fst kv), snd kv)) fields.

(** No two keys agree up to case. *)
Definition case_distinct (fields : list (string * value)) : Prop :=
  NoDup (map toLowerCase (map fst fields)).

(** The map has no header named [name], whatever the case of its keys, and
    no [__proto__] entry that would install another object as the prototype
    of the normalized map. *)
Definition lacks_header (fields : list (string * value)) (name : string) : Prop :=
  (forall k, In k (map fst fields) -> toLowerCase k <> name) /\
  (forall k o, In (k, VObj o) fields -> toLowerCase k <> "__proto__").

(** The number of logged requests of the trailing five minutes whose host
    header is [h]. *)
Definition contacts (now : Z) (logs : list AnomalyDetector.origin_log)
  (h : string) : nat :=
  length
    (filter
       (fun r =>
          (now - 5 * AnomalyDetector.minute <? AnomalyDetector.log_timestamp r)%Z
          && match AnomalyDetector.host r with
             | Some h' => h =? h'
             | None => false
             end)
       logs).

End Spec.

(* ================================================================= *)
(** ** tests/utils.js: safety validation of the attacker response *)

Module ResponseSafety.

Definition sensitiveHeaders : list string :=
  [ "set-cookie"; "authorization"; "proxy-authorization" ].

Definition sensitive_issue (header : string) : string :=
  "Sensitive header " ++ header ++ " found in cached response".

Definition private_issue : string := "Private content found in cached response".

(** [x.includes(needle)] on a truthy receiver: the substring test on a
    string, a TypeError on any other data value. *)
Definition method_includes (name : string) (x : value) (needle : string)
  : completion value :=
  match x with
  | VStr s => Normal (VBool (includes s needle))
  | _ => Throw (name ++ ".includes is not a function")
  end.

(** [headers] is the object [response.headers()] returns. *)
Definition validateResponseSafety (headers : list (string * value))
  : completion (list string) :=
  let safetyIssues :=
    fold_left
      (fun issues header =>
         if truthy (get (VObj headers) header)
         then (issues ++ [sensitive_issue header])%list
         else issues)
      sensitiveHeaders [] in
  let cacheControl := get (VObj headers) "cache-control" in
  condition <-
    (if truthy cacheControl then
       isPrivate <- method_includes "cacheControl" cacheControl "private" ;;
       Normal (Js.and isPrivate (get (VObj headers) "age"))
     else Normal cacheControl) ;;
  Normal (if truthy condition then (safetyIssues ++ [private_issue])%list
          else safetyIssues).

End ResponseSafety.

(* ================================================================= *)
(** ** monitoring/anomaly-detector.js: the remaining checks and the loop *)

Module Monitor.

Import AnomalyDetector.

(** The details of an anomaly: those of the request-rate check, or those of
    the checks of [AnomalyDetector]. *)
Inductive alert_details : Type :=
| RateDetails (requestCount limit : nat)
| CheckDetails (d : details).

(** An anomaly object, whichever check built it. *)
Record alert := mkAlert {
  alert_type : string;
  alert_severity : severity;
  alert_message : string;
  details_of : alert_details
}.

Definition of_anomaly (a : anomaly) : alert :=
  mkAlert (type a) (anomaly_severity a) (message a) (CheckDetails (anomaly_details a)).

Definition maxRequestsPerMinute : nat := 60.

Definition checkRequestRate (now : Z) (logs : list origin_log) : option alert :=
  let requestCount :=
    length (filter (fun r => (now - minute <? log_timestamp r)%Z) logs) in
  if (maxRequestsPerMinute <? requestCount)%nat then
    Some (mkAlert "HIGH_REQUEST_RATE" HIGH
            ("High request rate detected: " ++ show requestCount
               ++ " requests in last minute")
            (RateDetails requestCount maxRequestsPerMinute))
  else None.

(** A row of [experiments] as [checkLongRunningSWs] reads it: the timestamp
    and the array [attack_outcome.safety_issues]. *)
Record trial_row := mkTrialRow {
  trial_timestamp : Z;
  safety_issues : list string
}.

(** The WHERE clause: [(attack_outcome->>'safety_issues')::jsonb ?
    'long_running_sw'] holds when the array has that string as an element. *)
Definition long_running (now : Z) (r : trial_row) : bool :=
  (now - 10 * minute <? trial_timestamp r)%Z
  && AnomalyDetector.mem "long_running_sw" (safety_issues r).

Definition checkLongRunningSWs (now : Z) (trials : list trial_row)
  : option alert :=
  let longRunningSWs := length (filter (long_running now) trials) in
  if (0 <? longRunningSWs)%nat then
    Some (mkAlert "LONG_RUNNING_SERVICE_WORKERS" MEDIUM
            ("Long-running Service Workers detected: " ++ show longRunningSWs)
            (CheckDetails (DCount longRunningSWs)))
  else None.

(** The detector object. *)
Record detector := mkDetector {
  anomalies : list alert;
  lastCheck : Z
}.

(** [new AnomalyDetector()] at [Date.now() = t]. *)
Definition create (t : Z) : detector := mkDetector [] t.

(** What the four queries of one pass see: each its own [NOW()] and its own
    snapshot of the table it reads. *)
Record observations := mkObservations {
  rate_now : Z;       rate_logs : list origin_log;
  external_now : Z;   external_logs : list origin_log;
  success_now : Z;    success_experiments : list experiment;
  sw_now : Z;         sw_trials : list trial_row
}.

(** A row of [performance_metrics] written by [alertOnAnomalies]. *)
Record metric := mkMetric {
  metric_type : string;
  metric_value : nat;
  metadata : alert
}.

(** [if (x) anomalies.push(x)]. *)
Definition push_found (found : option alert) (acc : list alert) : list alert :=
  match found with
  | Some a => acc ++ [a]
  | None => acc
  end.

(** The INSERTs of [alertOnAnomalies], one per anomaly, in order. *)
Definition alertOnAnomalies (found : list alert) (metrics : list metric)
  : list metric :=
  fold_left (fun table a => (table ++ [mkMetric "security_anomaly" 1 a])%list)
            found metrics.

(** One pass: the anomalies found, the detector afterwards, the metrics
    table afterwards (every query and INSERT succeeding). *)
Definition checkForAnomalies (d : detector) (currentTime : Z)
  (o : observations) (metrics : list metric)
  : list alert * detector * list metric :=
  let found := [] in
  let found := push_found (checkRequestRate (rate_now o) (rate_logs o)) found in
  let found :=
    push_found
      (option_map of_anomaly
         (checkExternalDomains (external_now o) (external_logs o))) found in
  let found :=
    push_found
      (option_map of_anomaly
         (checkUnexpectedSuccesses (success_now o) (success_experiments o)))
      found in
  let found := push_found (checkLongRunningSWs (sw_now o) (sw_trials o)) found in
  let d' := mkDetector (anomalies d ++ found)%list currentTime in
  let metrics' :=
    if (0 <? length found)%nat then alertOnAnomalies found metrics
    else metrics in
  (found, d', metrics').

Record severity_counts := mkCounts {
  count_CRITICAL : nat;
  count_HIGH : nat;
  count_MEDIUM : nat;
  count_LOW : nat
}.

Record summary := mkSummary {
  total : nat;
  bySeverity : severity_counts;
  byType : list (string * nat)
}.

Definition severity_eqb (a b : severity) : bool :=
  match a, b with
  | LOW, LOW | MEDIUM, MEDIUM | HIGH, HIGH | CRITICAL, CRITICAL => true
  | _, _ => false
  end.

Definition count_severity (s : severity) (l : list alert) : nat :=
  length (filter (fun a => severity_eqb (alert_severity a) s) l).

Fixpoint lookup_count (byType : list (string * nat)) (k : string) : option nat :=
  match byType with
  | [] => None
  | (k', n) :: rest => if k' =? k then Some n else lookup_count rest k
  end.

Fixpoint set_count (byType : list (string * nat)) (k : string) (n : nat)
  : list (string * nat) :=
  match byType with
  | [] => [(k, n)]
  | (k', n') :: rest =>
      if k' =? k then (k', n) :: rest else (k', n') :: set_count rest k n
  end.

(** [summary.byType[t] = (summary.byType[t] || 0) + 1], for a type name [t]
    that [Object.prototype] does not define (the four types the checks
    emit are such). *)
Definition bump (byType : list (string * nat)) (t : string)
  : list (string * nat) :=
  let current := match lookup_count byType t with
                 | Some n => if (n =? 0)%nat then 0%nat else n
                 | None => 0%nat
                 end in
  set_count byType t (current + 1).

Definition getAnomalySummary (d : detector) : summary :=
  mkSummary
    (length (anomalies d))
    (mkCounts (count_severity CRITICAL (anomalies d))
              (count_severity HIGH (anomalies d))
              (count_severity MEDIUM (anomalies d))
              (count_severity LOW (anomalies d)))
    (fold_left (fun byType a => bump byType (alert_type a)) (anomalies d) []).

(** The detector and the metrics table after a series of passes. *)
Fixpoint run (passes : list (Z * observations)) (d : detector)
  (metrics : list metric) : detector * list metric :=
  match passes with
  | [] => (d, metrics)
  | (currentTime, o) :: rest =>
      let '(_, d', metrics') := checkForAnomalies d currentTime o metrics in
      run rest d' metrics'
  end.

End Monitor.

(* ================================================================= *)
(** ** analysis/statistical-engine.js: the report *)

Module Report.

Local Open Scope float_scope.
Local Set Warnings "-inexact-float".

(** [chiSquareResult.pValue < 0.05], the test [generateReport] prints as
    'Statistically significant relationship detected'. *)
Definition significant (chiSquare df : float) : bool :=
  Stats.calculatePValue chiSquare df <? 0.05.

Local Close Scope float_scope.

(** [mitigations.push(...)] of a block guarded by [cond]. *)
Definition push_all (cond : bool) (items mitigations : list string)
  : list string :=
  if cond then mitigations ++ items else mitigations.

Definition suggestMitigation (cdn attack strategy : string) : list string :=
  let mitigations := [] in
  let mitigations :=
    push_all (attack =? "t1-path-sculpting")
      [ "Enable Cache Deception Armor on CDN";
        "Validate Content-Type matches file extension at origin";
        "Use proper Cache-Control: private, no-store headers" ] mitigations in
  let mitigations :=
    push_all (attack =? "t2-header-manipulation")
      [ "Sanitize request headers at origin";
        "Avoid header reflection vulnerabilities";
        "Use strict Cache-Control headers" ] mitigations in
  let mitigations :=
    push_all (attack =? "t4-scope-misconfig")
      [ "Restrict Service Worker scope using Service-Worker-Allowed header";
        "Use user-specific cache keys";
        "Avoid path normalization that creates cache collisions" ] mitigations in
  let mitigations :=
    push_all (strategy =? "misconfigured")
      [ "Always set Cache-Control: private, no-store for authenticated content" ]
      mitigations in
  mitigations.

End Report.

(* ================================================================= *)
(** ** tests/utils.js: marker extraction *)

Module Marker.

(** The regular expressions of the sources use four kinds of pieces: a
    literal, [\s*], [[^c]*] and the capturing group [([^c]+)]. *)
Inductive atom : Type :=
| Lit (s : string)
| Spaces
| Skip (c : ascii)
| Group (c : ascii).

(** [\s] on ASCII text. *)
Definition is_space (a : ascii) : bool :=
  let n := nat_of_ascii a in
  ((9 <=? n)%nat && (n <=? 13)%nat) || (n =? 32)%nat.

Definition other_than (c a : ascii) : bool := negb (Ascii.eqb a c).

Fixpoint strip_prefix (l s : string) : option string :=
  match l with
  | EmptyString => Some s
  | String a l' =>
      match s with
      | String b s' => if Ascii.eqb a b then strip_prefix l' s' else None
      | EmptyString => None
      end
  end.

(** Greedy [x*] followed by the continuation [k]: the longest run first,
    then shorter ones. *)
Fixpoint star (p : ascii -> bool) (k : string -> bool) (s : string) : bool :=
  match s with
  | String a s' => if p a then star p k s' || k s else k s
  | EmptyString => k s
  end.

(** Greedy [x+] followed by [k]. *)
Definition plus (p : ascii -> bool) (k : string -> bool) (s : string) : bool :=
  match s with
  | String a s' => if p a then star p k s' else false
  | EmptyString => false
  end.

(** Does the pattern match a prefix of [s]? *)
Fixpoint match_rest (atoms : list atom) (s : string) : bool :=
  match atoms with
  | [] => true
  | Lit l :: rest =>
      match strip_prefix l s with
      | Some s' => match_rest rest s'
      | None => false
      end
  | Spaces :: rest => star is_space (match_rest rest) s
  | Skip c :: rest => star (other_than c) (match_rest rest) s
  | Group c :: rest => plus (other_than c) (match_rest rest) s
  end.

(** The same with results: [Some r] for the first continuation that
    succeeds. *)
Fixpoint star_find (p : ascii -> bool) (k : string -> option string)
  (s : string) : option string :=
  match s with
  | String a s' =>
      if p a then
        match star_find p k s' with
        | Some r => Some r
        | None => k s
        end
      else k s
  | EmptyString => k s
  end.

(** The capturing group: one or more characters, the longest run first;
    [captured] is what the group holds so far. *)
Fixpoint capture (p : ascii -> bool) (k : string -> bool)
  (captured s : string) : option string :=
  match s with
  | String a s' =>
      if p a then
        let captured' := captured ++ String a "" in
        match capture p k captured' s' with
        | Some r => Some r
        | None => if k s' then Some captured' else None
        end
      else None
  | EmptyString => None
  end.

(** A match of the pattern at the start of [s]: the text of its group. *)
Fixpoint match_here (atoms : list atom) (s : string) : option string :=
  match atoms with
  | [] => None
  | Lit l :: rest =>
      match strip_prefix l s with
      | Some s' => match_here rest s'
      | None => None
      end
  | Spaces :: rest => star_find is_space (match_here rest) s
  | Skip c :: rest => star_find (other_than c) (match_here rest) s
  | Group c :: rest => capture (other_than c) (match_rest rest) "" s
  end.

(** [s.match(pattern)[1]]: the group of the leftmost match, [None] when
    nothing matches. *)
Fixpoint regex_group (atoms : list atom) (s : string) : option string :=
  match match_here atoms s with
  | Some r => Some r
  | None =>
      match s with
      | String _ s' => regex_group atoms s'
      | EmptyString => None
      end
  end.

Definition dq : string := String (ascii_of_nat 34) "".
Definition dq_char : ascii := ascii_of_nat 34.

Definition meta_open : string :=
  "<meta name=" ++ dq ++ "test-marker" ++ dq ++ " content=" ++ dq.

Definition patterns : list (list atom) :=
  [ [ Lit meta_open; Group dq_char; Lit dq ];
    [ Lit ("<code id=" ++ dq ++ "marker" ++ dq ++ ">"); Group "<"; Lit "</code>" ];
    [ Lit (dq ++ "marker" ++ dq ++ ":"); Spaces; Lit dq; Group dq_char; Lit dq ];
    [ Lit "window.trialMarker"; Spaces; Lit "="; Spaces; Lit "'"; Group "'";
      Lit "'" ];
    [ Lit ("id=" ++ dq ++ "marker" ++ dq); Skip ">"; Lit ">"; Group "<"; Lit "<" ];
    [ Lit ("data-marker=" ++ dq); Group dq_char; Lit dq ] ].

(** What the two DOM queries on the page resolve to ([None] for [null], also
    when the query rejects). *)
Record page := mkPage {
  marker_text : option string;
  meta_content : option string
}.

(** [if (x) return x] on a string or [null]. *)
Definition truthy_text (x : option string) : option string :=
  match x with
  | Some s => if s =? "" then None else Some s
  | None => None
  end.

Fixpoint first_group (ps : list (list atom)) (body : string) : option string :=
  match ps with
  | [] => None
  | p :: rest =>
      match truthy_text (regex_group p body) with
      | Some m => Some m
      | None => first_group rest body
      end
  end.

(** [None] is [null]. *)
Definition extractMarkerFromBody (page : option page) (body : value)
  : option string :=
  if negb (truthy body) || negb (typeof body =? "string") then None
  else
    match body with
    | VStr text =>
        let from_page :=
          match page with
          | Some pg =>
              match truthy_text (marker_text pg) with
              | Some marker => Some marker
              | None => truthy_text (meta_content pg)
              end
          | None => None
          end in
        match from_page with
        | Some marker => Some marker
        | None => first_group patterns text
        end
    | _ => None
    end.

(** The position of the first occurrence of [needle] in [s]. *)
Fixpoint first_index (needle s : string) : option nat :=
  if prefix needle s then Some 0%nat
  else match s with
       | String _ s' => option_map S (first_index needle s')
       | EmptyString => None
       end.

Definition has_char (c : ascii) (s : string) : bool :=
  existsb (Ascii.eqb c) (list_ascii_of_string s).

End Marker.

(* ================================================================= *)
(** ** origin/strategies.js and origin/server.js *)

Module Origin.

Definition HEADER_STRATEGIES : list (string * list (string * string)) :=
  [ ("proper",
     [ ("Cache-Control", "private, no-store, no-cache, must-revalidate, max-age=0");
       ("Set-Cookie", "session=test-session; HttpOnly; Secure; SameSite=Strict");
       ("Content-Type", "text/html; charset=utf-8");
       ("X-Content-Type-Options", "nosniff");
       ("X-Frame-Options", "DENY") ]);
    ("misconfigured",
     [ ("Cache-Control", "public, max-age=300");
       ("Content-Type", "text/html; charset=utf-8") ]);
    ("missing", [ ("Content-Type", "text/html; charset=utf-8") ]);
    ("conflicting",
     [ ("Cache-Control", "private, no-store");
       ("Surrogate-Control", "max-age=600");
       ("Content-Type", "text/html; charset=utf-8") ]) ].

Fixpoint assoc {A} (table : list (string * A)) (k : string) : option A :=
  match table with
  | [] => None
  | (k', v) :: rest => if k' =? k then Some v else assoc rest k
  end.

(** What [HEADER_STRATEGIES[name]] reads: an own entry, a member inherited
    from [Object.prototype], or [undefined]. *)
Inductive member : Type :=
| Entry (headers : list (string * string))
| Inherited (name : string).

Definition proper_headers : list (string * string) :=
  match assoc HEADER_STRATEGIES "proper" with
  | Some h => h
  | None => []
  end.

(** [HEADER_STRATEGIES[strategyName] || HEADER_STRATEGIES.proper]. *)
Definition getStrategy (strategyName : string) : member :=
  match assoc HEADER_STRATEGIES strategyName with
  | Some h => Entry h
  | None =>
      if Config.mem strategyName Object_prototype_keys
      then Inherited strategyName
      else Entry proper_headers
  end.

Definition validateStrategy (strategy : string) : completion bool :=
  let validStrategies := map fst HEADER_STRATEGIES in
  if negb (Config.mem strategy validStrategies) then
    Throw ("Invalid strategy: " ++ strategy ++ ". Must be one of: "
             ++ join ", " validStrategies)
  else Normal true.

(** [Object.entries]: an inherited member is a function or the prototype
    object, neither of which has enumerable own properties. *)
Definition entries (m : member) : list (string * string) :=
  match m with
  | Entry h => h
  | Inherited _ => []
  end.

(** [req.query.strategy || 'proper'], the query parameter being absent or a
    string. *)
Definition declared_strategy (query_strategy : option string) : string :=
  match query_strategy with
  | Some s => if s =? "" then "proper" else s
  | None => "proper"
  end.

(** The headers the /account and /api/user handlers set, or the exception
    that turns into the 400 response. *)
Definition strategy_headers (query_strategy : option string)
  : completion (list (string * string)) :=
  let strategy := declared_strategy query_strategy in
  _ <- validateStrategy strategy ;;
  Normal (entries (getStrategy strategy)).

Record user := mkUser {
  id : string;
  session : option string;
  isAuthenticated : bool
}.

(** [x.split('-').pop()]: the text after the last '-'. *)
Fixpoint last_segment (current s : string) : string :=
  match s with
  | EmptyString => current
  | String a s' =>
      if Ascii.eqb a "-" then last_segment "" s'
      else last_segment (current ++ String a "") s'
  end.

(** [cookie] is [req.headers.cookie]. *)
Definition simulateAuth (cookie : option string) : user :=
  let sessionCookie :=
    match cookie with
    | Some c => Marker.regex_group [ Marker.Lit "session="; Marker.Group ";" ] c
    | None => None
    end in
  match Marker.truthy_text sessionCookie with
  | Some sc => mkUser ("user-" ++ last_segment "" sc) (Some sc) true
  | None => mkUser "anonymous" None false
  end.

(** A request, as far as the logging code reads it. *)
Record request := mkRequest {
  req_path : string;
  user_agent : option string;
  accept : option string;
  cookie : option string;
  ip : option string
}.

(** [JSON.stringify] of an object whose values are strings or [undefined]:
    the latter are left out. *)
Fixpoint json_object (props : list (string * option string))
  : list (string * string) :=
  match props with
  | [] => []
  | (k, Some v) :: rest => (k, v) :: json_object rest
  | (k, None) :: rest => json_object rest
  end.

(** A row of [origin_logs]: its timestamp (DEFAULT NOW()) and its [headers]
    column ([None] is SQL NULL). *)
Record stored_log := mkStored {
  stored_timestamp : Z;
  stored_headers : option (list (string * string))
}.

(** The row the logging middleware inserts. *)
Definition middleware_log (now : Z) (req : request) : stored_log :=
  mkStored now
    (Some (json_object
             [ ("user-agent", user_agent req);
               ("accept", accept req);
               ("cookie", match Marker.truthy_text (cookie req) with
                          | Some _ => Some "***"
                          | None => None
                          end) ])).

(** The row the /account handler inserts: no [headers] column. *)
Definition handler_log (now : Z) : stored_log := mkStored now None.

(** [headers->>'host']. *)
Definition host_of (r : stored_log) : option string :=
  match stored_headers r with
  | Some o => assoc o "host"
  | None => None
  end.

(** The row as the monitor's queries read it. *)
Definition as_read (r : stored_log) : AnomalyDetector.origin_log :=
  AnomalyDetector.mkLog (stored_timestamp r) (host_of r).

End Origin.

(* ================================================================= *)
(** ** monitoring/request-logger.js *)

Module RequestLogger.

Record logger := mkLogger {
  requestCount : nat;
  errorCount : nat;
  startTime : Z
}.

Definition create (t : Z) : logger := mkLogger 0 0 t.

(** The INSERT of [logToDatabase]. *)
Definition logToDatabase (now : Z) (userAgent ip : option string)
  : Origin.stored_log :=
  Origin.mkStored now
    (Some (Origin.json_object
             [ ("user-agent", userAgent); ("x-forwarded-for", ip) ])).

(** [logRequest]: the logger afterwards and the table afterwards (the
    INSERT succeeding). *)
Definition logRequest (l : logger) (table : list Origin.stored_log)
  (now : Z) (req : Origin.request) (success : bool)
  : logger * list Origin.stored_log :=
  let l' :=
    mkLogger (requestCount l + 1)
             (if negb success then errorCount l + 1 else errorCount l)
             (startTime l) in
  (l', (table ++ [logToDatabase now (Origin.user_agent req) (Origin.ip req)])%list).

Fixpoint run (calls : list (Z * Origin.request * bool)) (l : logger)
  (table : list Origin.stored_log) : logger * list Origin.stored_log :=
  match calls with
  | [] => (l, table)
  | (now, req, success) :: rest =>
      let '(l', table') := logRequest l table now req success in
      run rest l' table'
  end.

End RequestLogger.

(* ================================================================= *)
(** ** tests/config.js and tests/attack.spec.js: before a trial starts *)

Module Harness.

(** [process.env], as far as [TEST_CONFIG.cdns] reads it. *)
Record env := mkEnv {
  CF_TEST_DOMAIN : option string;
  FASTLY_TEST_DOMAIN : option string;
  CLOUDFRONT_TEST_DOMAIN : option string
}.

(** [x || fallback] on a string or [undefined]. *)
Definition or_default (x : option string) (fallback : string) : string :=
  match Marker.truthy_text x with
  | Some s => s
  | None => fallback
  end.

Record cdn_config := mkCdn {
  testDomain : string;
  cacheHeaders : list string;
  configs : list string
}.

(** [TEST_CONFIG.cdns] (the three fields every entry has). *)
Definition cdns (e : env) : list (string * cdn_config) :=
  [ ("cloudflare",
     mkCdn (or_default (CF_TEST_DOMAIN e) "cf-test.yourdomain.com")
           [ "cf-cache-status"; "age"; "cf-ray" ] [ "default"; "loose" ]);
    ("fastly",
     mkCdn (or_default (FASTLY_TEST_DOMAIN e) "fastly-test.yourdomain.com")
           [ "x-cache"; "age"; "x-served-by" ] [ "default"; "aggressive" ]);
    ("cloudfront",
     mkCdn (or_default (CLOUDFRONT_TEST_DOMAIN e) "aws-test.yourdomain.com")
           [ "x-cache"; "age"; "x-amz-cf-id" ] [ "default"; "permissive" ]);
    ("local",
     mkCdn "cdn-simulator.local" [ "x-cache-status"; "x-cdn-simulator" ]
           [ "default" ]) ].

Definition local_config : cdn_config :=
  mkCdn "cdn-simulator.local" [ "x-cache-status"; "x-cdn-simulator" ] [ "default" ].

(** What [getCDNConfig] returns: a configuration, or a member inherited
    from [Object.prototype]. *)
Inductive cdn_member : Type :=
| Configured (c : cdn_config)
| InheritedMember (name : string).

(** [TEST_CONFIG.cdns[cdn] || TEST_CONFIG.cdns.local]. *)
Definition getCDNConfig (e : env) (cdn : string) : cdn_member :=
  match Origin.assoc (cdns e) cdn with
  | Some c => Configured c
  | None =>
      if Config.mem cdn Object_prototype_keys then InheritedMember cdn
      else Configured local_config
  end.


Record cookie := mkCookie {
  name : string;
  value : string;
  domain : string;
  path : string;
  httpOnly : bool;
  secure : bool;
  sameSite : string
}.

(** [createAuthCookie(domain, userId)] at [Date.now() = now]. *)
Definition createAuthCookie (now : nat) (domain userId : string) : cookie :=
  mkCookie "session"
           ("session-" ++ userId ++ "-" ++ AnomalyDetector.show now)
           domain "/" true true "Lax".

(** The Cookie request header a browser sends for that single cookie. *)
Definition cookie_header (c : cookie) : string := name c ++ "=" ++ value c.

End Harness.

(* ================================================================= *)
(** * Properties *)

Import TestUtils.

(** ** Strings and own properties *)

Lemma lower_ascii_idem (c : ascii) : lower_ascii (lower_ascii c) = lower_ascii c.
Proof.
  destruct c as [[] [] [] [] [] [] [] []]; vm_compute; reflexivity.
Qed.

Lemma toLowerCase_idem (s : string) : toLowerCase (toLowerCase s) = toLowerCase s.
Proof.
  induction s as [|c s IH]; simpl; [reflexivity|].
  now rewrite lower_ascii_idem, IH.
Qed.

Lemma prefix_refl (s : string) : prefix s s = true.
Proof.
  induction s as [|c s IH]; simpl; [reflexivity|].
  destruct (ascii_dec c c) as [_|ne]; [exact IH | now elim ne].
Qed.

Lemma includes_refl (s : string) : includes s s = true.
Proof.
  destruct s; simpl; [reflexivity|].
  destruct (ascii_dec a a) as [_|ne]; [|now elim ne].
  now rewrite prefix_refl.
Qed.

Lemma own_In fields k v : own fields k = Some v -> In (k, v) fields.
Proof.
  induction fields as [|[k' v'] rest IH]; simpl; [discriminate|].
  destruct (String.eqb_spec k' k) as [->|ne].
  - intros [= ->]. now left.
  - intros H. right. now apply IH.
Qed.

Lemma own_set_own_same fields k v : own (set_own fields k v) k = Some v.
Proof.
  induction fields as [|[k' v'] rest IH]; simpl.
  - now rewrite String.eqb_refl.
  - destruct (String.eqb_spec k' k) as [->|ne]; simpl.
    + now rewrite String.eqb_refl.
    + apply String.eqb_neq in ne. now rewrite ne.
Qed.

Lemma own_set_own_other fields k v k' :
  k <> k' -> own (set_own fields k v) k' = own fields k'.
Proof.
  intros ne.
  induction fields as [|[k0 v0] rest IH]; simpl.
  - apply String.eqb_neq in ne. now rewrite ne.
  - destruct (String.eqb_spec k0 k) as [->|ne0]; simpl.
    + apply String.eqb_neq in ne. now rewrite ne.
    + now rewrite IH.
Qed.

(** Reading a property of the normalized map after one assignment. *)
Lemma own_set_prop n k v s :
  s <> "__proto__" ->
  own (own_props (set_prop n k v)) s
  = if k =? s then Some v else own (own_props n) s.
Proof.
  intros ns. unfold set_prop.
  destruct (String.eqb_spec k "__proto__") as [->|nk].
  - assert (E : ("__proto__" =? s) = false) by (apply String.eqb_neq; congruence).
    rewrite E. now destruct v.
  - simpl. destruct (String.eqb_spec k s) as [->|ne].
    + apply own_set_own_same.
    + now apply own_set_own_other.
Qed.

(** ** normalizeHeaders *)

Section Normalize.

Variable fields : list (string * value).

Let step (normalized : headers) (key : string) : headers :=
  set_prop normalized (toLowerCase key) (get (VObj fields) key).

Lemma normalizeHeaders_object :
  normalizeHeaders (VObj fields) = fold_left step (map fst fields) empty.
Proof. reflexivity. Qed.

Lemma fold_own_absent ks acc s :
  s <> "__proto__" ->
  (forall k, In k ks -> toLowerCase k <> s) ->
  own (own_props (fold_left step ks acc)) s = own (own_props acc) s.
Proof.
  intros ns. revert acc.
  induction ks as [|k0 ks IH]; intros acc Hks; simpl; [reflexivity|].
  rewrite IH by (intros k Hk; apply Hks; now right).
  unfold step. rewrite own_set_prop by assumption.
  assert (E : (toLowerCase k0 =? s) = false)
    by (apply String.eqb_neq, Hks; now left).
  now rewrite E.
Qed.

Lemma fold_own_present ks acc k :
  toLowerCase k <> "__proto__" ->
  NoDup (map toLowerCase ks) ->
  In k ks ->
  own (own_props (fold_left step ks acc)) (toLowerCase k)
  = Some (get (VObj fields) k).
Proof.
  intros ns. revert acc.
  induction ks as [|k0 ks IH]; intros acc Hnd Hin; simpl; [contradiction|].
  inversion Hnd as [|? ? Hout Hnd']; subst.
  destruct (string_dec k0 k) as [->|ne].
  - rewrite fold_own_absent; [| assumption |].
    + unfold step. rewrite own_set_prop by assumption.
      now rewrite String.eqb_refl.
    + intros k' Hk' E. apply Hout. rewrite <- E. now apply in_map.
  - destruct Hin as [->|Hin]; [now elim ne|]. now apply IH.
Qed.

Lemma fold_proto_plain ks acc :
  (forall k o, In k ks -> get (VObj fields) k = VObj o ->
               toLowerCase k <> "__proto__") ->
  (forall o, proto acc <> ProtoObj o) ->
  forall o, proto (fold_left step ks acc) <> ProtoObj o.
Proof.
  revert acc.
  induction ks as [|k0 ks IH]; intros acc Hks Hacc; simpl; [exact Hacc|].
  apply IH; [intros k o Hk; apply Hks; now right|].
  unfold step, set_prop.
  remember (get (VObj fields) k0) as g eqn:G.
  destruct (String.eqb_spec (toLowerCase k0) "__proto__") as [E|ne];
    [|exact Hacc].
  destruct g as [ | | b | x | t | o0]; simpl; try exact Hacc; try discriminate.
  elim (Hks k0 o0 (or_introl eq_refl) (eq_sym G) E).
Qed.

End Normalize.

Lemma fold_left_map_keys {A B C} (f : A -> C -> A) (g : B -> C) l a :
  fold_left f (map g l) a = fold_left (fun acc x => f acc (g x)) l a.
Proof.
  revert a. induction l as [|x l IH]; intros a; simpl; [reflexivity|apply IH].
Qed.

Lemma fold_left_agree {A B} (f g : A -> B -> A) l a :
  (forall acc x, In x l -> f acc x = g acc x) ->
  fold_left f l a = fold_left g l a.
Proof.
  revert a. induction l as [|x l IH]; intros a H; simpl; [reflexivity|].
  rewrite (H a x) by now left.
  apply IH. intros acc y Hy. apply H. now right.
Qed.

(** In a map without case-insensitive duplicates, a key reads the same
    before and after its keys are lowercased. *)
Lemma own_case_distinct fields k v :
  Spec.case_distinct fields ->
  In (k, v) fields ->
  own fields k = Some v /\
  own (Spec.lowercase_keys fields) (toLowerCase k) = Some v.
Proof.
  unfold Spec.case_distinct.
  induction fields as [|[k0 v0] rest IH]; simpl; intros Hnd Hin; [contradiction|].
  inversion Hnd as [|? ? Hout Hnd']; subst.
  destruct Hin as [[= -> ->]|Hin].
  - now rewrite !String.eqb_refl.
  - assert (Hk : In (toLowerCase k) (map toLowerCase (map fst rest))).
    { apply in_map, (in_map fst _ (k, v)), Hin. }
    assert (N1 : toLowerCase k0 <> toLowerCase k) by congruence.
    assert (N2 : k0 <> k) by congruence.
    apply String.eqb_neq in N1, N2. rewrite N1, N2.
    now apply IH.
Qed.

Lemma keys_lowercase_keys fields :
  map fst (Spec.lowercase_keys fields) = map toLowerCase (map fst fields).
Proof.
  unfold Spec.lowercase_keys. rewrite !map_map. reflexivity.
Qed.

Lemma normalizeHeaders_lowercase_keys fields :
  Spec.case_distinct fields ->
  normalizeHeaders (VObj (Spec.lowercase_keys fields))
  = normalizeHeaders (VObj fields).
Proof.
  intros Hnd.
  rewrite !normalizeHeaders_object, keys_lowercase_keys, fold_left_map_keys.
  apply fold_left_agree. intros acc k Hk.
  rewrite toLowerCase_idem. f_equal.
  apply in_map_iff in Hk. destruct Hk as [[k' v] [E Hin]]. simpl in E. subst k'.
  destruct (own_case_distinct fields k v Hnd Hin) as [E1 E2].
  simpl. now rewrite E1, E2.
Qed.

Lemma lookup_present fields k v :
  Spec.case_distinct fields ->
  In (k, v) fields ->
  toLowerCase k <> "__proto__" ->
  lookup (normalizeHeaders (VObj fields)) (toLowerCase k) = v.
Proof.
  intros Hnd Hin Hk.
  rewrite normalizeHeaders_object. unfold lookup.
  rewrite fold_own_present; try assumption.
  - simpl. now destruct (own_case_distinct fields k v Hnd Hin) as [-> _].
  - now apply (in_map fst _ (k, v)).
Qed.

Lemma lookup_absent fields name :
  Spec.lacks_header fields name ->
  name <> "__proto__" ->
  lookup (normalizeHeaders (VObj fields)) name = VUndefined.
Proof.
  intros [Hkeys Hproto] Hname.
  rewrite normalizeHeaders_object. unfold lookup.
  rewrite fold_own_absent by assumption. simpl.
  destruct (proto _) as [ | |o] eqn:P; try reflexivity.
  exfalso. revert P.
  apply fold_proto_plain; [|discriminate].
  intros k o' _ G. apply (Hproto k o'). apply own_In.
  simpl in G. destruct (own fields k); [now subst|discriminate].
Qed.

(** ** The guard on the headers argument *)

Lemma guard_malformed v :
  Spec.malformed v = true ->
  negb (truthy v) || negb (typeof v =? "object") = true.
Proof.
  destruct v; simpl; intros H; try discriminate; try reflexivity;
    apply orb_true_r.
Qed.

Lemma guard_object fields :
  negb (truthy (VObj fields)) || negb (typeof (VObj fields) =? "object") = false.
Proof. reflexivity. Qed.

(** ** parseCDNCacheStatus *)

Lemma parse_malformed rawHeaders cdn :
  Spec.malformed rawHeaders = true ->
  parseCDNCacheStatus rawHeaders cdn
  = VObj [ ("status", VStr "INVALID_HEADERS"); ("raw", VNull);
           ("error", VStr "Headers not provided") ].
Proof.
  intros H. unfold parseCDNCacheStatus.
  now rewrite (guard_malformed _ H).
Qed.

Lemma normalize_malformed rawHeaders :
  Spec.malformed rawHeaders = true -> normalizeHeaders rawHeaders = empty.
Proof.
  intros H. unfold normalizeHeaders.
  now rewrite (guard_malformed _ H).
Qed.

Lemma or_bool_false b : Js.or (VBool b) (VBool false) = VBool b.
Proof. now destruct b. Qed.

Section Vendors.

Variable fields : list (string * value).
Let headers := normalizeHeaders (VObj fields).

Lemma parse_cloudflare :
  parseCDNCacheStatus (VObj fields) "cloudflare"
  = let cfStatus := lookup headers "cf-cache-status" in
    VObj [ ("status", Js.or cfStatus (VStr "MISSING_HEADER"));
           ("raw", cfStatus);
           ("hit", VBool (strict_eq_str cfStatus "HIT"));
           ("miss", VBool (strict_eq_str cfStatus "MISS"));
           ("dynamic", VBool (strict_eq_str cfStatus "DYNAMIC")) ].
Proof. reflexivity. Qed.

Lemma parse_local :
  parseCDNCacheStatus (VObj fields) "local"
  = let localStatus := lookup headers "x-cache-status" in
    VObj [ ("status", Js.or localStatus (VStr "MISSING_HEADER"));
           ("raw", localStatus);
           ("hit", VBool (strict_eq_str localStatus "HIT"));
           ("miss", VBool (strict_eq_str localStatus "MISS"));
           ("bypass", VBool (strict_eq_str localStatus "BYPASS")) ].
Proof. reflexivity. Qed.

Lemma parse_fastly_string v :
  lookup headers "x-cache" = VStr v ->
  parseCDNCacheStatus (VObj fields) "fastly"
  = VObj [ ("status", Js.or (VStr v) (VStr "MISSING_HEADER"));
           ("raw", VStr v);
           ("hit", VBool (includes v "HIT"));
           ("miss", VBool (includes v "MISS"));
           ("unknown", VBool (negb (truthy (VStr v)))) ].
Proof.
  intros E. unfold parseCDNCacheStatus. rewrite guard_object.
  cbv zeta. fold headers.
  replace ("fastly" =? "cloudflare") with false by reflexivity.
  replace ("fastly" =? "fastly") with true by reflexivity.
  rewrite E. cbn [optional_includes Js.bind]. now rewrite !or_bool_false.
Qed.

Lemma parse_cloudfront_string v :
  lookup headers "x-cache" = VStr v ->
  parseCDNCacheStatus (VObj fields) "cloudfront"
  = VObj [ ("status", Js.or (VStr v) (VStr "MISSING_HEADER"));
           ("raw", VStr v);
           ("hit", VBool (includes v "Hit"));
           ("miss", VBool (includes v "Miss"));
           ("error", VBool (includes v "Error")) ].
Proof.
  intros E. unfold parseCDNCacheStatus. rewrite guard_object.
  cbv zeta. fold headers.
  replace ("cloudfront" =? "cloudflare") with false by reflexivity.
  replace ("cloudfront" =? "fastly") with false by reflexivity.
  replace ("cloudfront" =? "cloudfront") with true by reflexivity.
  rewrite E. cbn [optional_includes Js.bind]. now rewrite !or_bool_false.
Qed.

Lemma parse_missing cdn name :
  In (cdn, name)
     [ ("cloudflare", "cf-cache-status"); ("fastly", "x-cache");
       ("cloudfront", "x-cache"); ("local", "x-cache-status") ] ->
  lookup headers name = VUndefined ->
  get (parseCDNCacheStatus (VObj fields) cdn) "status" = VStr "MISSING_HEADER".
Proof.
  intros Hin E. unfold parseCDNCacheStatus. rewrite guard_object.
  cbv zeta. fold headers.
  simpl in Hin.
  destruct Hin as [[= <- <-]|[[= <- <-]|[[= <- <-]|[[= <- <-]|[]]]]];
    rewrite E; reflexivity.
Qed.

Lemma parse_unsupported cdn :
  Spec.supported cdn = false ->
  parseCDNCacheStatus (VObj fields) cdn
  = VObj [ ("status", VStr "UNSUPPORTED_CDN"); ("raw", VNull);
           ("error", VStr ("Unsupported CDN: " ++ cdn)) ].
Proof.
  unfold Spec.supported, Spec.rule_table.
  cbn [existsb Spec.vendor]. intros H.
  repeat (apply orb_false_iff in H; destruct H as [?E H]).
  rewrite String.eqb_sym in E, E0, E1, E2.
  unfold parseCDNCacheStatus. rewrite guard_object.
  cbv zeta. now rewrite E, E0, E1, E2.
Qed.

End Vendors.

(** The hit and miss flags computed from a signal header that carries the
    string [v]. *)
Lemma interpreter_flags r fields k v :
  In r Spec.rule_table ->
  Spec.case_distinct fields ->
  In (k, VStr v) fields ->
  toLowerCase k = Spec.signal_header r ->
  let result := parseCDNCacheStatus (VObj fields) (Spec.vendor r) in
  get result "hit" = VBool (Spec.rule_matches (Spec.kind r) (Spec.hit_string r) v) /\
  get result "miss" = VBool (Spec.rule_matches (Spec.kind r) (Spec.miss_string r) v).
Proof.
  intros Hr Hnd Hin Hk.
  assert (L : lookup (normalizeHeaders (VObj fields)) (Spec.signal_header r)
              = VStr v).
  { rewrite <- Hk. apply lookup_present; try assumption.
    rewrite Hk. simpl in Hr.
    destruct Hr as [<-|[<-|[<-|[<-|[]]]]]; discriminate. }
  simpl in Hr.
  destruct Hr as [<-|[<-|[<-|[<-|[]]]]]; cbn [Spec.vendor Spec.signal_header
    Spec.kind Spec.hit_string Spec.miss_string Spec.rule_matches] in *.
  - rewrite parse_cloudflare. cbv zeta. rewrite L. split; reflexivity.
  - rewrite (parse_fastly_string _ _ L). split; reflexivity.
  - rewrite (parse_cloudfront_string _ _ L). split; reflexivity.
  - rewrite parse_local. cbv zeta. rewrite L. split; reflexivity.
Qed.

(** C9.  For every vendor, a headers argument that is [null], [undefined] or
    not an object makes the interpreter return, without throwing, the object
    [{status: 'INVALID_HEADERS', raw: null, error: 'Headers not provided'}],
    whose status is none of the seven normalized verdicts; and
    [normalizeHeaders] returns the empty map on such an argument. *)
Theorem invalid_headers_total (rawHeaders : value) (cdn : string) :
  Spec.malformed rawHeaders = true ->
  parseCDNCacheStatus rawHeaders cdn
  = VObj [ ("status", VStr "INVALID_HEADERS"); ("raw", VNull);
           ("error", VStr "Headers not provided") ]
  /\ ~ In (get (parseCDNCacheStatus rawHeaders cdn) "status")
          (map VStr [ "HIT"; "MISS"; "BYPASS"; "UNKNOWN"; "MISSING_HEADER";
                      "UNSUPPORTED_VENDOR"; "PARSE_ERROR" ])
  /\ normalizeHeaders rawHeaders = mkHeaders [] ProtoDefault.
Proof.
  intros H. rewrite (parse_malformed _ cdn H).
  split; [reflexivity|]. split; [|now apply normalize_malformed].
  simpl. intros G. repeat (destruct G as [G|G]; [discriminate|]). exact G.
Qed.

Lemma invalid_headers_total_witness :
  parseCDNCacheStatus (VStr "x-cache: HIT") "fastly"
  = VObj [ ("status", VStr "INVALID_HEADERS"); ("raw", VNull);
           ("error", VStr "Headers not provided") ]
  /\ parseCDNCacheStatus VNull "local"
     = VObj [ ("status", VStr "INVALID_HEADERS"); ("raw", VNull);
              ("error", VStr "Headers not provided") ].
Proof.
  split.
  - exact (proj1 (invalid_headers_total (VStr "x-cache: HIT") "fastly" eq_refl)).
  - exact (proj1 (invalid_headers_total VNull "local" eq_refl)).
Defined.

(** C3, as amended.  For every vendor, a headers argument that is [null],
    [undefined] or not an object yields the status INVALID_HEADERS (not
    PARSE_ERROR); the result carries neither [hit = true] nor [miss = true],
    and its status is not MISS. *)
Theorem malformed_headers_verdict (rawHeaders : value) (cdn : string) :
  Spec.malformed rawHeaders = true ->
  let result := parseCDNCacheStatus rawHeaders cdn in
  get result "status" = VStr "INVALID_HEADERS" /\
  get result "hit" <> VBool true /\
  get result "miss" <> VBool true /\
  get result "status" <> VStr "MISS".
Proof.
  intros H result. subst result. rewrite (parse_malformed _ cdn H).
  repeat split; try reflexivity; discriminate.
Qed.

Lemma malformed_headers_verdict_witness :
  get (parseCDNCacheStatus VUndefined "cloudflare") "status"
  = VStr "INVALID_HEADERS".
Proof.
  exact (proj1 (malformed_headers_verdict VUndefined "cloudflare" eq_refl)).
Defined.

(** C3 as stated fails: a [null] headers argument does not yield
    PARSE_ERROR. *)
Lemma malformed_headers_not_parse_error :
  ~ (forall rawHeaders cdn,
       Spec.malformed rawHeaders = true ->
       get (parseCDNCacheStatus rawHeaders cdn) "status" = VStr "PARSE_ERROR").
Proof.
  intros H. specialize (H VNull "local" eq_refl). discriminate H.
Qed.

(** C5.  For every vendor and every header map without case-insensitive
    duplicate keys, the interpreter returns the same result on the map and
    on the map with all keys lowercased. *)
Theorem interpreter_key_case_insensitive
  (fields : list (string * value)) (cdn : string) :
  Spec.case_distinct fields ->
  parseCDNCacheStatus (VObj fields) cdn
  = parseCDNCacheStatus (VObj (Spec.lowercase_keys fields)) cdn.
Proof.
  intros Hnd. unfold parseCDNCacheStatus.
  rewrite !guard_object.
  now rewrite (normalizeHeaders_lowercase_keys fields Hnd).
Qed.

Lemma case_distinct_example :
  Spec.case_distinct
    [ ("X-Cache", VStr "HIT, MISS"); ("Age", VStr "12"); ("CF-Ray", VStr "8a1") ].
Proof.
  unfold Spec.case_distinct. simpl.
  repeat constructor; simpl; intuition discriminate.
Defined.

Lemma interpreter_key_case_insensitive_witness :
  parseCDNCacheStatus
    (VObj [ ("X-Cache", VStr "HIT, MISS"); ("Age", VStr "12");
            ("CF-Ray", VStr "8a1") ]) "fastly"
  = parseCDNCacheStatus
      (VObj [ ("x-cache", VStr "HIT, MISS"); ("age", VStr "12");
              ("cf-ray", VStr "8a1") ]) "fastly".
Proof.
  exact (interpreter_key_case_insensitive _ "fastly" case_distinct_example).
Defined.

(** C4, as amended.  Over the fixed rule table (cloudflare/cf-cache-status
    exact, fastly/x-cache contains 'HIT', cloudfront/x-cache contains 'Hit',
    local/x-cache-status exact): a header map without case-insensitive
    duplicate keys whose signal header carries a string that meets the
    vendor's HIT rule yields [hit = true], and one that meets the MISS rule
    yields [miss = true] (the canonical strings meet their own rules); a
    header map that lacks the signal header yields status MISSING_HEADER;
    and for every vendor outside the table the status is UNSUPPORTED_CDN,
    whatever the header map holds. *)
Theorem interpreter_round_trip :
  (forall r, In r Spec.rule_table ->
     Spec.rule_matches (Spec.kind r) (Spec.hit_string r) (Spec.hit_string r) = true /\
     Spec.rule_matches (Spec.kind r) (Spec.miss_string r) (Spec.miss_string r) = true /\
     forall fields k v,
       Spec.case_distinct fields ->
       In (k, VStr v) fields ->
       toLowerCase k = Spec.signal_header r ->
       let result := parseCDNCacheStatus (VObj fields) (Spec.vendor r) in
       (Spec.rule_matches (Spec.kind r) (Spec.hit_string r) v = true ->
        get result "hit" = VBool true) /\
       (Spec.rule_matches (Spec.kind r) (Spec.miss_string r) v = true ->
        get result "miss" = VBool true)) /\
  (forall r fields, In r Spec.rule_table ->
     Spec.lacks_header fields (Spec.signal_header r) ->
     get (parseCDNCacheStatus (VObj fields) (Spec.vendor r)) "status"
     = VStr "MISSING_HEADER") /\
  (forall cdn fields, Spec.supported cdn = false ->
     get (parseCDNCacheStatus (VObj fields) cdn) "status"
     = VStr "UNSUPPORTED_CDN").
Proof.
  split; [|split].
  - intros r Hr. split; [|split].
    + simpl in Hr. destruct Hr as [<-|[<-|[<-|[<-|[]]]]]; reflexivity.
    + simpl in Hr. destruct Hr as [<-|[<-|[<-|[<-|[]]]]]; reflexivity.
    + intros fields k v Hnd Hin Hk result.
      destruct (interpreter_flags r fields k v Hr Hnd Hin Hk) as [Eh Em].
      subst result. rewrite Eh, Em.
      split; intros ->; reflexivity.
  - intros r fields Hr Hlacks.
    apply parse_missing with (name := Spec.signal_header r).
    + simpl in Hr. destruct Hr as [<-|[<-|[<-|[<-|[]]]]]; simpl; tauto.
    + apply lookup_absent; [assumption|].
      simpl in Hr. destruct Hr as [<-|[<-|[<-|[<-|[]]]]]; discriminate.
  - intros cdn fields H. now rewrite (parse_unsupported fields cdn H).
Qed.

Lemma interpreter_round_trip_witness :
  get (parseCDNCacheStatus
         (VObj [ ("X-Cache", VStr "HIT, MISS"); ("Age", VStr "12");
                 ("CF-Ray", VStr "8a1") ]) "fastly") "hit" = VBool true
  /\ get (parseCDNCacheStatus (VObj [ ("Age", VStr "12") ]) "local") "status"
     = VStr "MISSING_HEADER"
  /\ get (parseCDNCacheStatus (VObj [ ("x-cache", VStr "HIT") ]) "akamai") "status"
     = VStr "UNSUPPORTED_CDN".
Proof.
  destruct interpreter_round_trip as [Hhit [Hmissing Hunsupported]].
  split; [|split].
  - refine (proj1 (proj2 (proj2 (Hhit
              (Spec.mkRule "fastly" "x-cache" Spec.Contains "HIT" "MISS") _))
            _ "X-Cache" "HIT, MISS" case_distinct_example _ eq_refl) eq_refl);
      simpl; tauto.
  - refine (Hmissing
              (Spec.mkRule "local" "x-cache-status" Spec.Exact "HIT" "MISS")
              [ ("Age", VStr "12") ] _ _); [simpl; tauto|].
    split.
    + intros k [<-|[]]; discriminate.
    + intros k o [H|[]]; discriminate H.
  - exact (Hunsupported "akamai" _ eq_refl).
Defined.

(** C4 as stated fails: the status for a vendor outside the table is not
    UNSUPPORTED_VENDOR. *)
Lemma unsupported_vendor_status_differs :
  ~ (forall cdn fields, Spec.supported cdn = false ->
       get (parseCDNCacheStatus (VObj fields) cdn) "status"
       = VStr "UNSUPPORTED_VENDOR").
Proof.
  intros H. specialize (H "akamai" [] eq_refl). discriminate H.
Qed.

(** A key that lowercases to [__proto__] and carries an object becomes the
    prototype of the normalized map, so its entries are read as headers. *)
Example proto_key_is_read_as_headers :
  get (parseCDNCacheStatus
         (VObj [ ("__PROTO__", VObj [ ("x-cache-status", VStr "HIT") ]) ])
         "local") "hit" = VBool true.
Proof. reflexivity. Qed.

(** A signal header whose value is not a string makes the interpreter
    throw, which its handler turns into PARSE_ERROR. *)
Example parse_error_reachable :
  get (parseCDNCacheStatus (VObj [ ("x-cache", VBool true) ]) "fastly") "status"
  = VStr "PARSE_ERROR".
Proof. reflexivity. Qed.

(** ** Classification of a trial *)

Lemma and_true_iff a b :
  Js.and a b = VBool true <-> truthy a = true /\ b = VBool true.
Proof.
  unfold Js.and. destruct (truthy a) eqn:T; split.
  - intros ->. now split.
  - now intros [_ ->].
  - intros ->. discriminate T.
  - intros [H _]. discriminate H.
Qed.

(** The [hit] field of an interpreter result is a boolean or absent. *)
Lemma parse_hit_shape rawHeaders cdn :
  get (parseCDNCacheStatus rawHeaders cdn) "hit" = VUndefined \/
  exists b, get (parseCDNCacheStatus rawHeaders cdn) "hit" = VBool b.
Proof.
  unfold parseCDNCacheStatus.
  destruct (negb (truthy rawHeaders) || negb (typeof rawHeaders =? "object"));
    [now left|].
  cbv zeta.
  destruct (cdn =? "cloudflare"); [right; eexists; reflexivity|].
  destruct (cdn =? "fastly").
  { destruct (lookup (normalizeHeaders rawHeaders) "x-cache");
      cbn [optional_includes Js.bind];
      try (now left); right; eexists; try reflexivity.
    cbn [get own String.eqb Ascii.eqb Bool.eqb]. apply or_bool_false. }
  destruct (cdn =? "cloudfront").
  { destruct (lookup (normalizeHeaders rawHeaders) "x-cache");
      cbn [optional_includes Js.bind];
      try (now left); right; eexists; try reflexivity.
    cbn [get own String.eqb Ascii.eqb Bool.eqb]. apply or_bool_false. }
  destruct (cdn =? "local"); [right; eexists; reflexivity|].
  now left.
Qed.

Lemma hit_truthy_iff rawHeaders cdn :
  truthy (get (parseCDNCacheStatus rawHeaders cdn) "hit") = true
  <-> get (parseCDNCacheStatus rawHeaders cdn) "hit" = VBool true.
Proof.
  destruct (parse_hit_shape rawHeaders cdn) as [E|[b E]]; rewrite E.
  - split; discriminate.
  - simpl. split; [now intros ->|now intros [= ->]].
Qed.

(** What the marker test evaluates to: the marker itself when it is falsy,
    the substring test otherwise. *)
Lemma containsVictimData_cases victimMarker attackerBody :
  Trial.containsVictimData victimMarker attackerBody
  = match victimMarker with
    | None => VNull
    | Some m => if m =? "" then VStr "" else VBool (includes attackerBody m)
    end.
Proof.
  destruct victimMarker as [m|]; [|reflexivity].
  unfold Trial.containsVictimData, Js.and. simpl.
  destruct (String.eqb_spec m "") as [->|]; reflexivity.
Qed.

Lemma containsVictimData_true_iff victimMarker attackerBody :
  victimMarker <> Some "" ->
  Trial.containsVictimData victimMarker attackerBody = VBool true
  <-> exists m, victimMarker = Some m /\ includes attackerBody m = true.
Proof.
  intros Hne. rewrite containsVictimData_cases.
  destruct victimMarker as [m|].
  - destruct (String.eqb_spec m "") as [->|_]; [now elim Hne|].
    split.
    + intros [= E]. now exists m.
    + intros [m' [[= <-] E]]. now rewrite E.
  - split; [discriminate|]. intros [m [E _]]. discriminate E.
Qed.

(** C1.  For every trial the recorded success flag is the conjunction
    [cache_hit && victim_data_retrieved]; it is [true] exactly when the
    interpreter's result for the attacker response has [hit = true] and the
    attacker body contains the victim marker (which the extractor returns as
    [null] or a non-empty string), and nothing else enters it. *)
Theorem success_is_conjunction
  (attackerHeaders : value) (cdn : string)
  (victimMarker : option string) (attackerBody : string) :
  victimMarker <> Some "" ->
  let trial := Trial.classify attackerHeaders cdn victimMarker attackerBody in
  Trial.success trial
  = Js.and (Trial.cache_hit trial) (Trial.victim_data_retrieved trial) /\
  (Trial.success trial = VBool true <->
   Trial.cache_hit trial = VBool true /\
   Trial.victim_data_retrieved trial = VBool true) /\
  (Trial.success trial = VBool true <->
   get (parseCDNCacheStatus attackerHeaders cdn) "hit" = VBool true /\
   exists m, victimMarker = Some m /\ includes attackerBody m = true).
Proof.
  intros Hne trial. subst trial. unfold Trial.classify. cbn [Trial.success
    Trial.cache_hit Trial.victim_data_retrieved]. unfold Trial.attackSuccess.
  split; [reflexivity|].
  rewrite and_true_iff, hit_truthy_iff.
  split; [reflexivity|].
  now rewrite (containsVictimData_true_iff _ _ Hne).
Qed.

Lemma success_is_conjunction_witness :
  Trial.success
    (Trial.classify (VObj [ ("X-Cache-Status", VStr "HIT") ]) "local"
       (Some "marker-1700000000000-ab12")
       "<code id=marker>marker-1700000000000-ab12</code>")
  = VBool true.
Proof.
  apply (proj2 (proj2 (success_is_conjunction
           (VObj [ ("X-Cache-Status", VStr "HIT") ]) "local"
           (Some "marker-1700000000000-ab12")
           "<code id=marker>marker-1700000000000-ab12</code>"
           ltac:(discriminate)))).
  split; [reflexivity|].
  exists "marker-1700000000000-ab12". split; reflexivity.
Defined.

(** C2, evaluated where the marker is [null]: the marker test is [null], not
    the boolean [false]; with a cache hit the success flag is [null] as
    well, and under the 'proper' strategy the trial's own assertion
    [expect(attackSuccess).toBe(false)] rejects it although no victim data
    was retrieved. *)
Theorem null_marker_yields_null :
  let attackerHeaders := VObj [ ("x-cache-status", VStr "HIT") ] in
  let attackerBody := "<html>public page</html>" in
  let cacheStatus := parseCDNCacheStatus attackerHeaders "local" in
  let trial := Trial.classify attackerHeaders "local" None attackerBody in
  Trial.containsVictimData None attackerBody = VNull /\
  Trial.victim_data_retrieved trial <> VBool false /\
  Trial.success trial = VNull /\
  Trial.assertions "proper" (Trial.success trial) cacheStatus
  = Throw "Attack should not succeed with proper security headers".
Proof.
  cbv zeta. repeat split; try reflexivity. discriminate.
Qed.

(** For a non-empty marker the marker test is the boolean substring test. *)
Lemma containsVictimData_marker m attackerBody :
  m <> "" ->
  Trial.containsVictimData (Some m) attackerBody = VBool (includes attackerBody m).
Proof.
  intros Hne. rewrite containsVictimData_cases.
  apply String.eqb_neq in Hne. now rewrite Hne.
Qed.

(** ** The safety monitor *)

Import AnomalyDetector.

Lemma filter_nonempty_iff {A} (f : A -> bool) (l : list A) :
  (0 <? length (filter f l))%nat = true <-> exists x, In x l /\ f x = true.
Proof.
  rewrite Nat.ltb_lt. split.
  - intros H. destruct (filter f l) as [|x rest] eqn:E; [simpl in H; lia|].
    exists x. apply filter_In. rewrite E. now left.
  - intros [x Hx]. apply filter_In in Hx.
    destruct (filter f l); [contradiction|simpl; lia].
Qed.

Lemma unexpected_iff now e :
  unexpected now e = true <->
  (now - hour < exp_timestamp e)%Z /\
  origin_header_strategy e = "proper" /\
  outcome_success e = Some true.
Proof.
  unfold unexpected. rewrite !andb_true_iff, Z.ltb_lt, String.eqb_eq.
  destruct (outcome_success e) as [[|]|]; intuition congruence.
Qed.

(** C6.  Under the 'proper' strategy a trial classified successful is
    surfaced: the trial's assertion throws on [success = true]; and the
    monitor's unexpected-success check returns an anomaly, of severity
    MEDIUM, exactly when some trial of the trailing hour has strategy
    'proper' and [success = true], and returns nothing otherwise. *)
Theorem proper_success_is_flagged :
  (forall attackSuccess cacheStatus,
     attackSuccess = VBool true ->
     Trial.assertions "proper" attackSuccess cacheStatus
     = Throw "Attack should not succeed with proper security headers") /\
  (forall now experiments,
     (exists a, checkUnexpectedSuccesses now experiments = Some a /\
                anomaly_severity a = MEDIUM)
     <->
     (exists e, In e experiments /\
                (now - hour < exp_timestamp e)%Z /\
                origin_header_strategy e = "proper" /\
                outcome_success e = Some true)) /\
  (forall now experiments a,
     checkUnexpectedSuccesses now experiments = Some a ->
     anomaly_severity a = MEDIUM /\ type a = "UNEXPECTED_SUCCESS") /\
  (forall now experiments,
     (forall e, In e experiments ->
        ~ ((now - hour < exp_timestamp e)%Z /\
           origin_header_strategy e = "proper" /\
           outcome_success e = Some true)) ->
     checkUnexpectedSuccesses now experiments = None).
Proof.
  split; [|split; [|split]].
  - intros attackSuccess cacheStatus ->. reflexivity.
  - intros now experiments. unfold checkUnexpectedSuccesses. cbv zeta.
    destruct (0 <? length (filter (unexpected now) experiments))%nat eqn:C.
    + apply filter_nonempty_iff in C. destruct C as [e [Hin He]].
      apply unexpected_iff in He. split.
      * intros _. now exists e.
      * intros _. eexists. split; reflexivity.
    + split.
      * intros [a [H _]]. discriminate H.
      * intros [e [Hin He]]. apply unexpected_iff in He.
        assert (T : (0 <? length (filter (unexpected now) experiments))%nat = true)
          by (apply filter_nonempty_iff; now exists e).
        congruence.
  - intros now experiments a. unfold checkUnexpectedSuccesses. cbv zeta.
    destruct (0 <? _)%nat; [|discriminate].
    intros [= <-]. split; reflexivity.
  - intros now experiments Hnone. unfold checkUnexpectedSuccesses. cbv zeta.
    destruct (0 <? length (filter (unexpected now) experiments))%nat eqn:C;
      [|reflexivity].
    apply filter_nonempty_iff in C. destruct C as [e [Hin He]].
    apply unexpected_iff in He. elim (Hnone e Hin He).
Qed.

Lemma proper_success_is_flagged_witness :
  exists a,
    checkUnexpectedSuccesses 7200000000%Z
      [ mkExperiment 7100000000%Z "misconfigured" (Some true);
        mkExperiment 7000000000%Z "proper" (Some true);
        mkExperiment 1000000000%Z "proper" (Some true) ] = Some a /\
    anomaly_severity a = MEDIUM.
Proof.
  apply (proj2 (proj1 (proj2 proper_success_is_flagged) 7200000000%Z _)).
  exists (mkExperiment 7000000000%Z "proper" (Some true)).
  split; [simpl; tauto|]. split; [reflexivity|]. split; reflexivity.
Defined.

Lemma selected_hosts_external now logs h :
  In h (selected_hosts now logs) -> mem h allowlist = false.
Proof.
  induction logs as [|r rest IH]; cbn [selected_hosts]; [contradiction|].
  unfold external_in_window.
  destruct (host r) as [h'|]; [|exact IH].
  destruct ((now - 5 * minute <? log_timestamp r)%Z); cbn [andb]; [|exact IH].
  destruct (mem h' allowlist) eqn:M; cbn [negb]; [exact IH|].
  intros [<-|H]; [exact M|now apply IH].
Qed.

Lemma count_host_contacts now logs h :
  mem h allowlist = false ->
  count_host h (selected_hosts now logs) = Spec.contacts now logs h.
Proof.
  intros M. unfold count_host, Spec.contacts.
  induction logs as [|r rest IH]; cbn [selected_hosts filter]; [reflexivity|].
  unfold external_in_window.
  destruct (host r) as [h'|]; [|now rewrite andb_false_r].
  destruct ((now - 5 * minute <? log_timestamp r)%Z); cbn [andb]; [|exact IH].
  destruct (String.eqb_spec h h') as [<-|ne].
  - rewrite M. cbn [negb filter]. rewrite String.eqb_refl.
    cbn [length]. now rewrite IH.
  - destruct (mem h' allowlist); cbn [negb filter]; [exact IH|].
    apply String.eqb_neq in ne. now rewrite ne.
Qed.

Lemma count_host_positive h hs : (0 < count_host h hs)%nat -> In h hs.
Proof.
  unfold count_host. intros H.
  destruct (filter (String.eqb h) hs) as [|x rest] eqn:E; [simpl in H; lia|].
  assert (Hx : In x (filter (String.eqb h) hs)) by (rewrite E; now left).
  apply filter_In in Hx. destruct Hx as [Hx Ex].
  apply String.eqb_eq in Ex. now subst.
Qed.

Lemma external_rows_nonempty_iff now logs :
  (0 <? length (external_rows now logs))%nat = true <->
  exists h, mem h allowlist = false /\ (1 < Spec.contacts now logs h)%nat.
Proof.
  unfold external_rows. cbv zeta. rewrite filter_nonempty_iff. split.
  - intros [[h c] [Hin Hc]]. simpl in Hc. apply Nat.ltb_lt in Hc.
    apply in_map_iff in Hin. destruct Hin as [h' [[= -> <-] Hh]].
    apply nodup_In in Hh. pose proof (selected_hosts_external _ _ _ Hh) as M.
    exists h. split; [exact M|]. now rewrite <- count_host_contacts.
  - intros [h [M Hc]]. rewrite <- count_host_contacts in Hc by exact M.
    exists (h, count_host h (selected_hosts now logs)). split.
    + apply in_map_iff. exists h. split; [reflexivity|].
      apply nodup_In, count_host_positive. lia.
    + simpl. now apply Nat.ltb_lt.
Qed.

(** C7, as amended.  The external-domain check reports an anomaly exactly
    when some host outside the fixed allowlist has more than one logged
    request in the trailing five minutes; every anomaly it reports has
    severity CRITICAL. *)
Theorem external_domains_critical (now : Z) (logs : list origin_log) :
  ((exists a, checkExternalDomains now logs = Some a) <->
   (exists h, mem h allowlist = false /\ (1 < Spec.contacts now logs h)%nat)) /\
  (forall a, checkExternalDomains now logs = Some a ->
             anomaly_severity a = CRITICAL /\ type a = "EXTERNAL_DOMAIN_CONTACT").
Proof.
  unfold checkExternalDomains. cbv zeta.
  destruct (0 <? length (external_rows now logs))%nat eqn:C.
  - apply external_rows_nonempty_iff in C. split.
    + split; [intros _; exact C|intros _; eexists; reflexivity].
    + intros a [= <-]. split; reflexivity.
  - split.
    + split; [intros [a H]; discriminate H|].
      intros H. apply external_rows_nonempty_iff in H. congruence.
    + intros a H. discriminate H.
Qed.

(** C7 as stated fails: a single request to a host outside the allowlist,
    inside the window, is not reported. *)
Lemma single_external_contact_unreported :
  ~ (forall now logs,
       (exists r h, In r logs /\ host r = Some h /\
                    mem h allowlist = false /\
                    (now - 5 * minute < log_timestamp r)%Z) ->
       exists a, checkExternalDomains now logs = Some a).
Proof.
  intros H.
  destruct (H 600000000%Z [ mkLog 599000000%Z (Some "evil.example") ])
    as [a Ha].
  - exists (mkLog 599000000%Z (Some "evil.example")), "evil.example".
    split; [now left|]. split; [reflexivity|]. split; reflexivity.
  - discriminate Ha.
Qed.

(** Two requests to the same outside host are reported, as CRITICAL. *)
Example repeated_external_contact_reported :
  checkExternalDomains 600000000%Z
    [ mkLog 599000000%Z (Some "evil.example");
      mkLog 599500000%Z (Some "localhost");
      mkLog 599900000%Z (Some "evil.example") ]
  = Some (mkAnomaly "EXTERNAL_DOMAIN_CONTACT" CRITICAL
            "Requests to external domains detected"
            (DDomains [ ("evil.example", 2%nat) ])).
Proof. reflexivity. Qed.

(** ** Scenario validation *)

(** C8, evaluated at a scenario whose CDN is the name of a method every
    object inherits: [TEST_CONFIG.cdns['toString']] is a function, hence
    truthy, so no error is collected and validation returns [true], although
    'toString' is none of the four CDN vendors. *)
Theorem inherited_name_passes_validation :
  let p := Config.mkParams "toString" "chromium" "t1-path-sculpting" "proper" in
  Config.mem (Config.cdn p) Config.cdns_keys = false /\
  Config.collect_errors p = [] /\
  Config.validateTestParams p = Normal true.
Proof. cbv zeta. repeat split; reflexivity. Qed.

(** The same scenario with a CDN name that no object inherits is rejected,
    and the message names the dimension. *)
Example unknown_cdn_rejected :
  Config.validateTestParams
    (Config.mkParams "akamai" "chromium" "t1-path-sculpting" "proper")
  = Throw ("Test parameter validation failed:" ++ Config.newline ++
           "Invalid CDN: akamai. Must be one of: cloudflare, fastly, cloudfront, local").
Proof. reflexivity. Qed.

(** Away from the names inherited from [Object.prototype], validation throws
    exactly when some dimension is outside its enumeration, collects one
    message per invalid dimension, in order, and returns [true] otherwise. *)
Lemma validateTestParams_own_names (p : Config.params) :
  Config.mem (Config.cdn p) Object_prototype_keys = false ->
  Config.mem (Config.attack p) Object_prototype_keys = false ->
  Config.collect_errors p
  = ((if Config.mem (Config.cdn p) Config.cdns_keys then []
      else [Config.invalid "CDN" (Config.cdn p) Config.cdns_keys])
     ++ (if Config.mem (Config.browser p) Config.browsers then []
         else [Config.invalid "browser" (Config.browser p) Config.browsers])
     ++ (if Config.mem (Config.attack p) Config.attacks_keys then []
         else [Config.invalid "attack" (Config.attack p) Config.attacks_keys])
     ++ (if Config.mem (Config.strategy p) Config.originStrategies then []
         else [Config.invalid "strategy" (Config.strategy p)
                 Config.originStrategies]))%list
  /\ (Config.validateTestParams p = Normal true <->
      Config.mem (Config.cdn p) Config.cdns_keys = true /\
      Config.mem (Config.browser p) Config.browsers = true /\
      Config.mem (Config.attack p) Config.attacks_keys = true /\
      Config.mem (Config.strategy p) Config.originStrategies = true).
Proof.
  intros Hc Ha.
  unfold Config.validateTestParams, Config.collect_errors, Config.truthy_entry,
    Config.push_if.
  rewrite Hc, Ha, !orb_false_r.
  destruct (Config.mem (Config.cdn p) Config.cdns_keys),
           (Config.mem (Config.browser p) Config.browsers),
           (Config.mem (Config.attack p) Config.attacks_keys),
           (Config.mem (Config.strategy p) Config.originStrategies);
    cbn [negb app length Nat.ltb Nat.leb];
    (split; [reflexivity|]); split; try discriminate; try tauto;
    intros [? [? [? ?]]]; discriminate.
Qed.

(** ** The p-value lookup *)

Lemma lex_lt (e1 e2 : Z) (m1 m2 : positive) :
  match (e1 ?= e2)%Z with
  | Eq => Pos.compare_cont Eq m1 m2
  | Lt => Lt
  | Gt => Gt
  end = Lt <-> (e1 < e2 \/ (e1 = e2 /\ (m1 < m2)%positive))%Z.
Proof.
  change (Pos.compare_cont Eq m1 m2) with (Pos.compare m1 m2).
  destruct (Z.compare_spec e1 e2) as [->|H|H].
  - rewrite Pos.compare_lt_iff. intuition lia.
  - intuition lia.
  - split; [discriminate|lia].
Qed.

Lemma lex_eq (e1 e2 : Z) (m1 m2 : positive) :
  match (e1 ?= e2)%Z with
  | Eq => Pos.compare_cont Eq m1 m2
  | Lt => Lt
  | Gt => Gt
  end = Eq <-> (e1 = e2 /\ m1 = m2).
Proof.
  change (Pos.compare_cont Eq m1 m2) with (Pos.compare m1 m2).
  destruct (Z.compare_spec e1 e2) as [->|H|H].
  - rewrite Pos.compare_eq_iff. intuition lia.
  - split; [discriminate|lia].
  - split; [discriminate|lia].
Qed.

Lemma lex_gt (e1 e2 : Z) (m1 m2 : positive) :
  match (e1 ?= e2)%Z with
  | Eq => CompOpp (Pos.compare_cont Eq m1 m2)
  | Lt => Gt
  | Gt => Lt
  end = Lt <-> (e2 < e1 \/ (e1 = e2 /\ (m2 < m1)%positive))%Z.
Proof.
  change (Pos.compare_cont Eq m1 m2) with (Pos.compare m1 m2).
  destruct (Z.compare_spec e1 e2) as [->|H|H].
  - destruct (Pos.compare_spec m1 m2); simpl; split; try discriminate; try lia; intuition lia.
  - split; [discriminate|lia].
  - intuition lia.
Qed.

Lemma lex_gt_eq (e1 e2 : Z) (m1 m2 : positive) :
  match (e1 ?= e2)%Z with
  | Eq => CompOpp (Pos.compare_cont Eq m1 m2)
  | Lt => Gt
  | Gt => Lt
  end = Eq <-> (e1 = e2 /\ m1 = m2).
Proof.
  change (Pos.compare_cont Eq m1 m2) with (Pos.compare m1 m2).
  destruct (Z.compare_spec e1 e2) as [->|H|H].
  - destruct (Pos.compare_spec m1 m2); simpl; split; try discriminate; try lia; intuition lia.
  - split; [discriminate|lia].
  - split; [discriminate|lia].
Qed.

Lemma SFcompare_lt_le_trans a b c :
  SFcompare a b = Some Lt ->
  SFcompare b c = Some Lt \/ SFcompare b c = Some Eq ->
  SFcompare a c = Some Lt.
Proof.
  destruct a as [sa|sa| |sa ma ea], b as [sb|sb| |sb mb eb], c as [sc|sc| |sc mc ec];
    try destruct sa; try destruct sb; try destruct sc; simpl;
    intros H1 [H2|H2]; try discriminate; try reflexivity;
    injection H1 as H1; injection H2 as H2; f_equal;
    rewrite ?lex_lt, ?lex_eq, ?lex_gt, ?lex_gt_eq in *; lia.
Qed.

Local Open Scope float_scope.
Local Set Warnings "-inexact-float".

Lemma ltb_leb_trans (t x y : float) :
  (t <? x) = true -> (x <=? y) = true -> (t <? y) = true.
Proof.
  rewrite !ltb_spec, leb_spec. unfold SFltb, SFleb.
  intros H1 H2.
  rewrite (SFcompare_lt_le_trans (Prim2SF t) (Prim2SF x) (Prim2SF y));
    [reflexivity| |].
  - destruct (SFcompare (Prim2SF t) (Prim2SF x)) as [[| |]|];
      try discriminate; reflexivity.
  - destruct (SFcompare (Prim2SF x) (Prim2SF y)) as [[| |]|];
      try discriminate; [now right|now left].
Qed.

(** C10.  The p-value lookup returns one of the five values 0.001, 0.01,
    0.05, 0.10, 0.20, each of which it does return; for every degrees of
    freedom other than 1 it returns 0.20 whatever the statistic; and for
    one degree of freedom the result does not increase when the statistic
    grows. *)
Theorem calculatePValue_lookup :
  (forall chiSquare df,
     In (Stats.calculatePValue chiSquare df) [0.001; 0.01; 0.05; 0.10; 0.20]) /\
  (forall p, In p [0.001; 0.01; 0.05; 0.10; 0.20] ->
     exists chiSquare df, Stats.calculatePValue chiSquare df = p) /\
  (forall chiSquare df,
     (df =? 1) = false -> Stats.calculatePValue chiSquare df = 0.20) /\
  (forall x y df,
     (df =? 1) = true -> (x <=? y) = true ->
     (Stats.calculatePValue y df <=? Stats.calculatePValue x df) = true).
Proof.
  split; [|split; [|split]].
  - intros chiSquare df. unfold Stats.calculatePValue.
    destruct (_ && _); [simpl; tauto|].
    destruct (_ && _); [simpl; tauto|].
    destruct (_ && _); [simpl; tauto|].
    destruct (_ && _); simpl; tauto.
  - intros p Hp. simpl in Hp.
    destruct Hp as [<-|[<-|[<-|[<-|[<-|[]]]]]].
    + exists 11, 1. reflexivity.
    + exists 7, 1. reflexivity.
    + exists 4, 1. reflexivity.
    + exists 3, 1. reflexivity.
    + exists 1, 1. reflexivity.
  - intros chiSquare df H. unfold Stats.calculatePValue.
    now rewrite H, !andb_false_r.
  - intros x y df Hdf Hxy. unfold Stats.calculatePValue.
    rewrite Hdf, !andb_true_r.
    pose proof (fun t => ltb_leb_trans t x y) as T.
    destruct (10.828 <? x) eqn:X1; [rewrite (T _ X1 Hxy); reflexivity|].
    destruct (6.635 <? x) eqn:X2;
      [rewrite (T _ X2 Hxy); destruct (10.828 <? y); reflexivity|].
    destruct (3.841 <? x) eqn:X3;
      [rewrite (T _ X3 Hxy);
       destruct (10.828 <? y); [reflexivity|];
       destruct (6.635 <? y); reflexivity|].
    destruct (2.706 <? x) eqn:X4;
      [rewrite (T _ X4 Hxy);
       destruct (10.828 <? y); [reflexivity|];
       destruct (6.635 <? y); [reflexivity|];
       destruct (3.841 <? y); reflexivity|].
    destruct (10.828 <? y); [reflexivity|].
    destruct (6.635 <? y); [reflexivity|].
    destruct (3.841 <? y); [reflexivity|].
    destruct (2.706 <? y); reflexivity.
Qed.

Lemma calculatePValue_lookup_witness :
  (Stats.calculatePValue 7.2 1 <=? Stats.calculatePValue 3.0 1) = true /\
  Stats.calculatePValue 50 2 = 0.20.
Proof.
  destruct calculatePValue_lookup as [_ [_ [Hdf Hmono]]].
  split.
  - exact (Hmono 3.0 7.2 1 eq_refl eq_refl).
  - exact (Hdf 50 2 eq_refl).
Defined.

(* ================================================================= *)
(** * Further properties of the harness, the monitor and the origin *)

Local Close Scope float_scope.
Local Open Scope string_scope.

(** ** Safety validation of a response *)

Import ResponseSafety.

Lemma get_string_valued headers k :
  (forall k' v, In (k', v) headers -> exists s, v = VStr s) ->
  get (VObj headers) k = VUndefined \/ exists s, get (VObj headers) k = VStr s.
Proof.
  intros H. simpl. destruct (own headers k) as [v|] eqn:E; [|now left].
  right. apply own_In in E. destruct (H _ _ E) as [s ->]. now exists s.
Qed.

(** The issues collected for the three sensitive headers. *)
Lemma sensitive_issues_unfold headers :
  fold_left
    (fun issues header =>
       if truthy (get (VObj headers) header)
       then (issues ++ [sensitive_issue header])%list
       else issues)
    sensitiveHeaders []
  = ((if truthy (get (VObj headers) "set-cookie")
      then [sensitive_issue "set-cookie"] else [])
     ++ (if truthy (get (VObj headers) "authorization")
         then [sensitive_issue "authorization"] else [])
     ++ (if truthy (get (VObj headers) "proxy-authorization")
         then [sensitive_issue "proxy-authorization"] else []))%list.
Proof.
  unfold sensitiveHeaders. cbn [fold_left].
  destruct (truthy (get (VObj headers) "set-cookie")),
           (truthy (get (VObj headers) "authorization")),
           (truthy (get (VObj headers) "proxy-authorization")); reflexivity.
Qed.

(** Whatever the headers, a normal result only holds the four messages. *)
Lemma validateResponseSafety_messages headers issues :
  validateResponseSafety headers = Normal issues ->
  forall i, In i issues ->
    In i [ sensitive_issue "set-cookie"; sensitive_issue "authorization";
           sensitive_issue "proxy-authorization"; private_issue ].
Proof.
  unfold validateResponseSafety. cbv zeta. rewrite sensitive_issues_unfold.
  set (b1 := truthy (get (VObj headers) "set-cookie")).
  set (b2 := truthy (get (VObj headers) "authorization")).
  set (b3 := truthy (get (VObj headers) "proxy-authorization")).
  set (found := ((if b1 then [sensitive_issue "set-cookie"] else [])
                 ++ (if b2 then [sensitive_issue "authorization"] else [])
                 ++ (if b3 then [sensitive_issue "proxy-authorization"] else []))%list).
  assert (F : forall x, In x found \/ x = private_issue ->
                In x [ sensitive_issue "set-cookie"; sensitive_issue "authorization";
                       sensitive_issue "proxy-authorization"; private_issue ]).
  { subst found. intros x [Hx| ->]; [|cbn [In]; tauto].
    destruct b1, b2, b3; cbn [app In] in Hx |- *; tauto. }
  assert (G : forall c : value,
            Normal (if truthy c then (found ++ [private_issue])%list else found)
            = Normal issues ->
            forall i, In i issues ->
              In i [ sensitive_issue "set-cookie"; sensitive_issue "authorization";
                     sensitive_issue "proxy-authorization"; private_issue ]).
  { intros c [= <-] i Hi. apply F.
    destruct (truthy c); [|now left].
    apply in_app_iff in Hi. destruct Hi as [Hi|[<-|[]]]; [now left|now right]. }
  intros H.
  destruct (truthy (get (VObj headers) "cache-control")).
  - destruct (get (VObj headers) "cache-control"); cbn [method_includes Js.bind] in H;
      try discriminate H. exact (G _ H).
  - exact (G _ H).
Qed.

(** X1.  On a header map whose values are strings, the safety validation of
    a response does not throw; it lists, in this order, one issue for each
    of set-cookie, authorization and proxy-authorization that is present
    and non-empty (whether or not the response shows any sign of caching),
    then one issue when cache-control contains 'private' and age is present
    and non-empty; so it reports nothing exactly when none of these holds. *)
Theorem validateResponseSafety_string_headers (headers : list (string * value)) :
  (forall k v, In (k, v) headers -> exists s, v = VStr s) ->
  let present k := truthy (get (VObj headers) k) in
  let is_private :=
    match get (VObj headers) "cache-control" with
    | VStr s => includes s "private"
    | _ => false
    end in
  validateResponseSafety headers
  = Normal ((if present "set-cookie" then [sensitive_issue "set-cookie"] else [])
            ++ (if present "authorization"
                then [sensitive_issue "authorization"] else [])
            ++ (if present "proxy-authorization"
                then [sensitive_issue "proxy-authorization"] else [])
            ++ (if is_private && present "age" then [private_issue] else []))%list
  /\ (validateResponseSafety headers = Normal [] <->
      present "set-cookie" = false /\ present "authorization" = false /\
      present "proxy-authorization" = false /\
      is_private && present "age" = false).
Proof.
  intros Hs present is_private.
  assert (E : validateResponseSafety headers
    = Normal ((if present "set-cookie" then [sensitive_issue "set-cookie"] else [])
            ++ (if present "authorization"
                then [sensitive_issue "authorization"] else [])
            ++ (if present "proxy-authorization"
                then [sensitive_issue "proxy-authorization"] else [])
            ++ (if is_private && present "age" then [private_issue] else []))%list).
  { unfold validateResponseSafety. cbv zeta. rewrite sensitive_issues_unfold.
    subst present is_private. cbv beta.
    destruct (get_string_valued headers "cache-control" Hs) as [C|[s C]];
      rewrite C; cbn [truthy Js.bind].
    - now rewrite !app_nil_r.
    - destruct (String.eqb_spec s "") as [->|ne]; cbn [negb Js.bind method_includes].
      + cbn [includes prefix andb]. now rewrite !app_nil_r.
      + unfold Js.and. cbn [truthy].
        destruct (includes s "private"); cbn [andb truthy].
        * destruct (truthy (get (VObj headers) "age"));
            now rewrite <- ?app_assoc, ?app_nil_r.
        * now rewrite !app_nil_r. }
  split; [exact E|]. rewrite E.
  destruct (present "set-cookie"), (present "authorization"),
           (present "proxy-authorization"), (is_private && present "age");
    simpl; split; try discriminate; try tauto;
    intros [? [? [? ?]]]; discriminate.
Qed.

Lemma validateResponseSafety_string_headers_witness :
  validateResponseSafety
    [ ("cache-control", VStr "private, no-store"); ("age", VStr "0");
      ("set-cookie", VStr "session=test-session; HttpOnly") ]
  = Normal [ sensitive_issue "set-cookie"; private_issue ].
Proof.
  refine (proj1 (validateResponseSafety_string_headers _ _)).
  intros k v [[= <- <-]|[[= <- <-]|[[= <- <-]|[]]]]; eexists; reflexivity.
Defined.

(** ** The monitor's other checks *)

Import Monitor.

Lemma no_hosts_no_anomaly now logs :
  (forall r, In r logs -> host r = None) ->
  checkExternalDomains now logs = None.
Proof.
  intros H.
  assert (E : selected_hosts now logs = []).
  { induction logs as [|r rest IH]; cbn [selected_hosts]; [reflexivity|].
    unfold external_in_window. rewrite (H r (or_introl eq_refl)).
    apply IH. intros r' Hr'. apply H. now right. }
  unfold checkExternalDomains, external_rows. cbv zeta. now rewrite E.
Qed.

Lemma json_object_keys props k v :
  In (k, v) (Origin.json_object props) -> In k (map fst props).
Proof.
  induction props as [|[k' [v'|]] rest IH]; simpl; [tauto| |].
  - intros [[= <- _]|H]; [now left|right; now apply IH].
  - intros H. right. now apply IH.
Qed.

Lemma assoc_absent {A} (table : list (string * A)) k :
  ~ In k (map fst table) -> Origin.assoc table k = None.
Proof.
  induction table as [|[k' v] rest IH]; simpl; [reflexivity|].
  intros H. destruct (String.eqb_spec k' k) as [->|ne]; [tauto|].
  apply IH. tauto.
Qed.

Lemma json_object_without props k :
  ~ In k (map fst props) -> Origin.assoc (Origin.json_object props) k = None.
Proof.
  intros H. apply assoc_absent. intros Hin.
  apply in_map_iff in Hin. destruct Hin as [[k' v] [E Hin]]. simpl in E. subst k'.
  apply H. eapply json_object_keys. exact Hin.
Qed.

(** X2.  No row written to origin_logs by the origin's logging middleware,
    by its /account handler or by the request logger carries a host header
    ([headers->>'host'] is NULL for each of them), so on a log made of such
    rows the external-domain check never reports an anomaly, whatever hosts
    the requests named. *)
Theorem external_check_blind_to_written_logs
  (now : Z) (rows : list Origin.stored_log) :
  (forall r, In r rows ->
     (exists t req, r = Origin.middleware_log t req) \/
     (exists t, r = Origin.handler_log t) \/
     (exists t userAgent ip, r = RequestLogger.logToDatabase t userAgent ip)) ->
  (forall r, In r rows -> Origin.host_of r = None) /\
  checkExternalDomains now (map Origin.as_read rows) = None.
Proof.
  intros H.
  assert (N : forall r, In r rows -> Origin.host_of r = None).
  { intros r Hr. destruct (H r Hr) as [[t [req ->]]|[[t ->]|[t [ua [ip ->]]]]];
      unfold Origin.host_of; cbn [Origin.stored_headers Origin.middleware_log
        Origin.handler_log RequestLogger.logToDatabase]; [| reflexivity |];
      apply json_object_without; cbn [map fst In];
      intros G; repeat (destruct G as [G|G]; [discriminate G|]); exact G. }
  split; [exact N|].
  apply no_hosts_no_anomaly. intros r Hr.
  apply in_map_iff in Hr. destruct Hr as [s [<- Hs]]. simpl. now apply N.
Qed.

Lemma external_check_blind_to_written_logs_witness :
  checkExternalDomains 600000000%Z
    (map Origin.as_read
       [ Origin.middleware_log 599000000%Z
           (Origin.mkRequest "/account" (Some "Mozilla/5.0") (Some "text/html")
              (Some "session=session-alice-1700000000000") (Some "203.0.113.7"));
         Origin.middleware_log 599100000%Z
           (Origin.mkRequest "/account" (Some "Mozilla/5.0") None None
              (Some "203.0.113.7"));
         Origin.handler_log 599200000%Z;
         RequestLogger.logToDatabase 599300000%Z (Some "curl/8.0")
           (Some "203.0.113.7") ])
  = None.
Proof.
  refine (proj2 (external_check_blind_to_written_logs 600000000%Z _ _)).
  intros r [<-|[<-|[<-|[<-|[]]]]].
  - left. eexists. eexists. reflexivity.
  - left. eexists. eexists. reflexivity.
  - right. left. eexists. reflexivity.
  - right. right. eexists. eexists. eexists. reflexivity.
Defined.

Lemma issue_is_not_long_running i :
  In i [ sensitive_issue "set-cookie"; sensitive_issue "authorization";
         sensitive_issue "proxy-authorization"; private_issue ] ->
  ("long_running_sw" =? i) = false.
Proof.
  intros [<-|[<-|[<-|[<-|[]]]]]; reflexivity.
Qed.

(** X3.  The safety issues a trial records are those of
    [validateResponseSafety], none of which is the string 'long_running_sw';
    so on trials recorded by the harness the long-running-worker check never
    reports an anomaly. *)
Theorem long_running_check_blind_to_recorded_trials
  (now : Z) (trials : list trial_row) :
  (forall r, In r trials ->
     exists headers, validateResponseSafety headers = Normal (safety_issues r)) ->
  checkLongRunningSWs now trials = None.
Proof.
  intros H. unfold checkLongRunningSWs. cbv zeta.
  assert (E : filter (long_running now) trials = []).
  { induction trials as [|r rest IH]; [reflexivity|]. cbn [filter].
    assert (M : AnomalyDetector.mem "long_running_sw" (safety_issues r) = false).
    { destruct (H r (or_introl eq_refl)) as [headers Hh].
      unfold AnomalyDetector.mem.
      destruct (existsb _ _) eqn:X; [|reflexivity].
      apply existsb_exists in X. destruct X as [i [Hi Ei]].
      pose proof (validateResponseSafety_messages _ _ Hh i Hi) as Hm.
      now rewrite (issue_is_not_long_running i Hm) in Ei. }
    unfold long_running at 1. rewrite M, andb_false_r.
    apply IH. intros r' Hr'. apply H. now right. }
  now rewrite E.
Qed.

Lemma long_running_check_blind_to_recorded_trials_witness :
  checkLongRunningSWs 600000000%Z
    [ mkTrialRow 599000000%Z [ sensitive_issue "set-cookie"; private_issue ];
      mkTrialRow 599500000%Z [] ]
  = None.
Proof.
  apply long_running_check_blind_to_recorded_trials.
  intros r [<-|[<-|[]]].
  - exists [ ("cache-control", VStr "private, no-store"); ("age", VStr "0");
             ("set-cookie", VStr "session=test-session; HttpOnly") ].
    reflexivity.
  - exists []. reflexivity.
Defined.

(** The check does fire on a row that carries the string. *)
Example long_running_check_fires_on_the_string :
  checkLongRunningSWs 600000000%Z
    [ mkTrialRow 599000000%Z [ "long_running_sw" ] ]
  = Some (mkAlert "LONG_RUNNING_SERVICE_WORKERS" MEDIUM
            "Long-running Service Workers detected: 1" (CheckDetails (DCount 1))).
Proof. reflexivity. Qed.

(** The request-rate check reports an anomaly exactly when more than 60
    requests were logged in the trailing minute (60 itself is within the
    limit); the anomaly has severity HIGH and carries the count and the
    limit. *)
Lemma request_rate_threshold (now : Z) (logs : list origin_log) :
  let requestCount :=
    length (filter (fun r => (now - minute <? log_timestamp r)%Z) logs) in
  ((60 < requestCount)%nat ->
   checkRequestRate now logs
   = Some (mkAlert "HIGH_REQUEST_RATE" HIGH
             ("High request rate detected: " ++ show requestCount
                ++ " requests in last minute")
             (RateDetails requestCount 60))) /\
  ((requestCount <= 60)%nat -> checkRequestRate now logs = None).
Proof.
  cbv zeta. unfold checkRequestRate, maxRequestsPerMinute. cbv zeta.
  split; intros H.
  - apply Nat.ltb_lt in H. now rewrite H.
  - apply Nat.ltb_ge in H. now rewrite H.
Qed.

(** ** The detector across passes *)

Lemma alertOnAnomalies_appends found metrics :
  alertOnAnomalies found metrics
  = (metrics ++ map (mkMetric "security_anomaly" 1) found)%list.
Proof.
  unfold alertOnAnomalies. revert metrics.
  induction found as [|a rest IH]; intros metrics; simpl.
  - now rewrite app_nil_r.
  - rewrite IH, <- app_assoc. reflexivity.
Qed.

(** What one pass finds, by check. *)
Lemma found_by_checks d currentTime o metrics :
  fst (fst (checkForAnomalies d currentTime o metrics))
  = (match checkRequestRate (rate_now o) (rate_logs o) with
     | Some a => [a] | None => [] end
     ++ match checkExternalDomains (external_now o) (external_logs o) with
        | Some a => [of_anomaly a] | None => [] end
     ++ match checkUnexpectedSuccesses (success_now o) (success_experiments o) with
        | Some a => [of_anomaly a] | None => [] end
     ++ match checkLongRunningSWs (sw_now o) (sw_trials o) with
        | Some a => [a] | None => [] end)%list.
Proof.
  unfold checkForAnomalies. cbv zeta. cbn [fst].
  destruct (checkRequestRate _ _), (checkExternalDomains _ _),
           (checkUnexpectedSuccesses _ _), (checkLongRunningSWs _ _);
    reflexivity.
Qed.

Lemma found_shape d currentTime o metrics :
  let found := fst (fst (checkForAnomalies d currentTime o metrics)) in
  (length found <= 4)%nat /\
  NoDup (map alert_type found) /\
  Forall (fun a =>
            In (alert_type a, alert_severity a)
               [ ("HIGH_REQUEST_RATE", HIGH);
                 ("EXTERNAL_DOMAIN_CONTACT", CRITICAL);
                 ("UNEXPECTED_SUCCESS", MEDIUM);
                 ("LONG_RUNNING_SERVICE_WORKERS", MEDIUM) ]) found.
Proof.
  cbv zeta. rewrite found_by_checks.
  assert (R : forall a, checkRequestRate (rate_now o) (rate_logs o) = Some a ->
                (alert_type a, alert_severity a) = ("HIGH_REQUEST_RATE", HIGH)).
  { unfold checkRequestRate. cbv zeta. intros a.
    destruct (_ <? _)%nat; [|discriminate]. now intros [= <-]. }
  assert (E : forall a, checkExternalDomains (external_now o) (external_logs o) = Some a ->
                (alert_type (of_anomaly a), alert_severity (of_anomaly a))
                = ("EXTERNAL_DOMAIN_CONTACT", CRITICAL)).
  { unfold checkExternalDomains. cbv zeta. intros a.
    destruct (_ <? _)%nat; [|discriminate]. now intros [= <-]. }
  assert (U : forall a, checkUnexpectedSuccesses (success_now o) (success_experiments o) = Some a ->
                (alert_type (of_anomaly a), alert_severity (of_anomaly a))
                = ("UNEXPECTED_SUCCESS", MEDIUM)).
  { unfold checkUnexpectedSuccesses. cbv zeta. intros a.
    destruct (_ <? _)%nat; [|discriminate]. now intros [= <-]. }
  assert (L : forall a, checkLongRunningSWs (sw_now o) (sw_trials o) = Some a ->
                (alert_type a, alert_severity a)
                = ("LONG_RUNNING_SERVICE_WORKERS", MEDIUM)).
  { unfold checkLongRunningSWs. cbv zeta. intros a.
    destruct (_ <? _)%nat; [|discriminate]. now intros [= <-]. }
  destruct (checkRequestRate _ _) as [a1|];
    [pose proof (R a1 eq_refl) as R1|];
  (destruct (checkExternalDomains _ _) as [a2|];
    [pose proof (E a2 eq_refl) as E2|]);
  (destruct (checkUnexpectedSuccesses _ _) as [a3|];
    [pose proof (U a3 eq_refl) as U3|]);
  (destruct (checkLongRunningSWs _ _) as [a4|];
    [pose proof (L a4 eq_refl) as L4|]);
  clear R E U L;
  repeat match goal with
         | H : (_, _) = (_, _) |- _ => injection H as ? ?
         end;
  cbn [app length map of_anomaly alert_type alert_severity];
  repeat match goal with
         | H : alert_type _ = _ |- _ => rewrite H
         | H : alert_severity _ = _ |- _ => rewrite H
         | H : type _ = _ |- _ => rewrite H
         | H : anomaly_severity _ = _ |- _ => rewrite H
         end;
  (split; [lia|]);
  (split;
   [ repeat (apply NoDup_cons || apply NoDup_nil); cbn [In];
     intuition discriminate
   | repeat (apply Forall_cons || apply Forall_nil);
     cbn [of_anomaly alert_type alert_severity];
     repeat match goal with
            | H : alert_type _ = _ |- _ => rewrite H
            | H : alert_severity _ = _ |- _ => rewrite H
            | H : type _ = _ |- _ => rewrite H
            | H : anomaly_severity _ = _ |- _ => rewrite H
            end;
     cbn [In]; tauto ]).
Qed.

(** X4.  One pass of the detector finds at most four anomalies, at most one
    per check and none of severity LOW; it appends them to the accumulator
    (what was accumulated before stays, in place), records the time of the
    pass, and writes exactly one 'security_anomaly' metric per anomaly
    found, in order, and none when nothing was found. *)
Theorem pass_is_append_only
  (d : detector) (currentTime : Z) (o : observations) (metrics : list metric) :
  let result := checkForAnomalies d currentTime o metrics in
  let found := fst (fst result) in
  let d' := snd (fst result) in
  let metrics' := snd result in
  anomalies d' = (anomalies d ++ found)%list /\
  lastCheck d' = currentTime /\
  metrics' = (metrics ++ map (mkMetric "security_anomaly" 1) found)%list /\
  (length found <= 4)%nat /\
  NoDup (map alert_type found) /\
  Forall (fun a => alert_severity a <> LOW) found.
Proof.
  cbv zeta.
  destruct (found_shape d currentTime o metrics) as [Hlen [Hnd Hall]].
  split; [reflexivity|]. split; [reflexivity|]. split; [|split; [exact Hlen|]].
  - unfold checkForAnomalies. cbv zeta. cbn [fst snd].
    match goal with |- context [alertOnAnomalies ?f _] => generalize f end.
    intros [|a rest].
    + simpl. now rewrite app_nil_r.
    + cbn [length Nat.ltb Nat.leb]. apply alertOnAnomalies_appends.
  - split; [exact Hnd|].
    eapply Forall_impl; [|exact Hall].
    intros a Ha. cbn [In] in Ha.
    destruct Ha as [[= _ <-]|[[= _ <-]|[[= _ <-]|[[= _ <-]|[]]]]]; discriminate.
Qed.

Lemma pass_result d currentTime o metrics :
  let found := fst (fst (checkForAnomalies d currentTime o metrics)) in
  checkForAnomalies d currentTime o metrics
  = (found, mkDetector (anomalies d ++ found) currentTime,
     (metrics ++ map (mkMetric "security_anomaly" 1) found)%list).
Proof.
  cbv zeta. unfold checkForAnomalies. cbv zeta. cbn [fst snd].
  match goal with |- context [alertOnAnomalies ?f _] => generalize f end.
  intros [|a rest].
  - simpl. now rewrite !app_nil_r.
  - cbn [length Nat.ltb Nat.leb]. now rewrite alertOnAnomalies_appends.
Qed.

(** What holds of the detector and the metrics table after any passes. *)
Lemma run_invariant passes :
  forall d metrics,
    map metadata metrics = anomalies d ->
    Forall (fun m => metric_type m = "security_anomaly" /\ metric_value m = 1%nat)
           metrics ->
    Forall (fun a =>
              In (alert_type a, alert_severity a)
                 [ ("HIGH_REQUEST_RATE", HIGH);
                   ("EXTERNAL_DOMAIN_CONTACT", CRITICAL);
                   ("UNEXPECTED_SUCCESS", MEDIUM);
                   ("LONG_RUNNING_SERVICE_WORKERS", MEDIUM) ]) (anomalies d) ->
    let '(d', metrics') := run passes d metrics in
    map metadata metrics' = anomalies d' /\
    Forall (fun m => metric_type m = "security_anomaly" /\ metric_value m = 1%nat)
           metrics' /\
    Forall (fun a =>
              In (alert_type a, alert_severity a)
                 [ ("HIGH_REQUEST_RATE", HIGH);
                   ("EXTERNAL_DOMAIN_CONTACT", CRITICAL);
                   ("UNEXPECTED_SUCCESS", MEDIUM);
                   ("LONG_RUNNING_SERVICE_WORKERS", MEDIUM) ]) (anomalies d').
Proof.
  induction passes as [|[currentTime o] rest IH]; intros d metrics Hm Hrows Hd.
  - simpl. now repeat split.
  - cbn [run]. rewrite pass_result.
    destruct (found_shape d currentTime o metrics) as [_ [_ Hfound]].
    cbv zeta in Hfound.
    set (found := fst (fst (checkForAnomalies d currentTime o metrics))) in *.
    apply IH; cbn [anomalies].
    + rewrite map_app, map_map. cbn [metadata]. rewrite map_id. now f_equal.
    + apply Forall_app. split; [exact Hrows|].
      apply Forall_forall. intros m Hin. apply in_map_iff in Hin.
      destruct Hin as [a [<- _]]. now split.
    + apply Forall_app. now split.
Qed.

(** X5.  Starting from a new detector and an empty metrics table, after any
    number of passes the metrics table holds exactly the accumulated
    anomalies, one 'security_anomaly' row of value 1 per anomaly and in the
    order of detection. *)
Theorem metrics_mirror_accumulator (passes : list (Z * observations)) (t0 : Z) :
  let d := fst (run passes (create t0) []) in
  let metrics := snd (run passes (create t0) []) in
  map metadata metrics = anomalies d /\
  Forall (fun m => metric_type m = "security_anomaly" /\ metric_value m = 1%nat)
         metrics.
Proof.
  cbv zeta.
  pose proof (run_invariant passes (create t0) [] eq_refl (Forall_nil _)
                (Forall_nil _)) as H.
  destruct (run passes (create t0) []) as [d metrics].
  destruct H as [H1 [H2 _]]. now split.
Qed.

Lemma severity_partition (l : list alert) :
  length l
  = (count_severity CRITICAL l + count_severity HIGH l
     + count_severity MEDIUM l + count_severity LOW l)%nat.
Proof.
  unfold count_severity.
  induction l as [|a l IH]; [reflexivity|].
  cbn [filter length]. destruct (alert_severity a); cbn [severity_eqb length]; lia.
Qed.

Lemma lookup_set_count_same byType k n :
  lookup_count (set_count byType k n) k = Some n.
Proof.
  induction byType as [|[k' n'] rest IH]; simpl.
  - now rewrite String.eqb_refl.
  - destruct (String.eqb_spec k' k) as [->|ne]; simpl.
    + now rewrite String.eqb_refl.
    + apply String.eqb_neq in ne. now rewrite ne.
Qed.

Lemma lookup_set_count_other byType k n k' :
  k <> k' -> lookup_count (set_count byType k n) k' = lookup_count byType k'.
Proof.
  intros ne.
  induction byType as [|[k0 n0] rest IH]; simpl.
  - apply String.eqb_neq in ne. now rewrite ne.
  - destruct (String.eqb_spec k0 k) as [->|ne0]; simpl.
    + apply String.eqb_neq in ne. now rewrite ne.
    + now rewrite IH.
Qed.

Lemma sum_set_count byType k n :
  list_sum (map snd (set_count byType k n))
  = (list_sum (map snd byType) + n
     - match lookup_count byType k with Some m => m | None => 0 end)%nat.
Proof.
  induction byType as [|[k' n'] rest IH]; simpl; [lia|].
  destruct (String.eqb_spec k' k) as [->|ne]; simpl; [lia|].
  rewrite IH.
  assert (B : (match lookup_count rest k with Some m => m | None => 0 end
               <= list_sum (map snd rest))%nat).
  { clear. induction rest as [|[k0 n0] rest IH]; simpl; [lia|].
    destruct (k0 =? k); lia. }
  lia.
Qed.

Lemma bump_current byType t :
  (match lookup_count byType t with
   | Some n => if (n =? 0)%nat then 0 else n
   | None => 0
   end
   = match lookup_count byType t with Some n => n | None => 0 end)%nat.
Proof.
  destruct (lookup_count byType t) as [n|]; [|reflexivity].
  destruct (Nat.eqb_spec n 0); congruence.
Qed.

Lemma byType_counts (l : list alert) :
  forall acc,
    let byType := fold_left (fun byType a => bump byType (alert_type a)) l acc in
    list_sum (map snd byType) = (list_sum (map snd acc) + length l)%nat /\
    forall t,
      match lookup_count byType t with Some n => n | None => 0%nat end
      = (match lookup_count acc t with Some n => n | None => 0%nat end
         + length (filter (fun a => String.eqb (alert_type a) t) l))%nat.
Proof.
  induction l as [|a l IH]; intros acc; cbn [fold_left length filter].
  - split; [lia|]. intros t. lia.
  - destruct (IH (bump acc (alert_type a))) as [S C]. cbv zeta in S, C.
    split.
    + rewrite S. unfold bump. rewrite bump_current, sum_set_count.
      assert (B : (match lookup_count acc (alert_type a) with
                   | Some m => m | None => 0 end
                   <= list_sum (map snd acc))%nat).
      { clear. induction acc as [|[k0 n0] rest IH]; simpl; [lia|].
        destruct (k0 =? alert_type a); lia. }
      lia.
    + intros t. rewrite C. unfold bump. rewrite bump_current.
      destruct (String.eqb_spec (alert_type a) t) as [<-|ne].
      * rewrite lookup_set_count_same. cbn [length]. lia.
      * rewrite lookup_set_count_other by exact ne. lia.
Qed.

(** X6.  After any number of passes from a new detector, the summary is
    consistent with what was accumulated and written: its total is the
    number of metric rows written and the sum of its CRITICAL, HIGH and
    MEDIUM counts; its LOW count is 0; the per-type counts add up to the
    total, and each is the number of accumulated anomalies of that type. *)
Theorem summary_of_accumulator (passes : list (Z * observations)) (t0 : Z) :
  let d := fst (run passes (create t0) []) in
  let metrics := snd (run passes (create t0) []) in
  let s := getAnomalySummary d in
  total s = length metrics /\
  total s = (count_CRITICAL (bySeverity s) + count_HIGH (bySeverity s)
             + count_MEDIUM (bySeverity s))%nat /\
  count_LOW (bySeverity s) = 0%nat /\
  list_sum (map snd (byType s)) = total s /\
  forall t,
    match lookup_count (byType s) t with Some n => n | None => 0%nat end
    = length (filter (fun a => String.eqb (alert_type a) t) (anomalies d)).
Proof.
  cbv zeta.
  pose proof (run_invariant passes (create t0) [] eq_refl (Forall_nil _)
                (Forall_nil _)) as H.
  destruct (run passes (create t0) []) as [d metrics].
  destruct H as [H1 [_ H3]]. cbn [fst snd].
  unfold getAnomalySummary.
  cbn [total bySeverity byType count_CRITICAL count_HIGH count_MEDIUM count_LOW].
  assert (L : count_severity LOW (anomalies d) = 0%nat).
  { unfold count_severity. clear H1. revert H3.
    generalize (anomalies d). intros l.
    induction l as [|a l IH]; intros H3; [reflexivity|].
    inversion H3 as [|? ? Ha Hl]; subst. cbn [filter].
    cbn [In] in Ha.
    destruct Ha as [[= _ <-]|[[= _ <-]|[[= _ <-]|[[= _ <-]|[]]]]];
      cbn [severity_eqb]; now apply IH. }
  destruct (byType_counts (anomalies d) []) as [S C]. cbv zeta in S, C.
  repeat split.
  - now rewrite <- H1, length_map.
  - rewrite (severity_partition (anomalies d)), L. lia.
  - exact L.
  - rewrite S. reflexivity.
  - intros t. rewrite C. reflexivity.
Qed.

(** A pass that finds two anomalies. *)
Example pass_with_two_findings :
  let o := mkObservations
             600000000%Z []
             600000000%Z [ mkLog 599000000%Z (Some "evil.example");
                           mkLog 599900000%Z (Some "evil.example") ]
             600000000%Z [ mkExperiment 599000000%Z "proper" (Some true) ]
             600000000%Z [] in
  let result := checkForAnomalies (create 0%Z) 600000%Z o [] in
  map alert_type (fst (fst result))
  = [ "EXTERNAL_DOMAIN_CONTACT"; "UNEXPECTED_SUCCESS" ] /\
  length (snd result) = 2%nat /\
  total (getAnomalySummary (snd (fst result))) = 2%nat.
Proof. cbv zeta. repeat split; reflexivity. Qed.

(** ** The report *)

Section FloatOrder.

Local Open Scope float_scope.
Local Set Warnings "-inexact-float".

Lemma ltb_trans (t u x : float) :
  (t <? u) = true -> (u <? x) = true -> (t <? x) = true.
Proof.
  rewrite !ltb_spec. unfold SFltb. intros H1 H2.
  rewrite (SFcompare_lt_le_trans (Prim2SF t) (Prim2SF u) (Prim2SF x));
    [reflexivity| |].
  - destruct (SFcompare (Prim2SF t) (Prim2SF u)) as [[| |]|];
      try discriminate; reflexivity.
  - destruct (SFcompare (Prim2SF u) (Prim2SF x)) as [[| |]|];
      try discriminate; now left.
Qed.

(** X7.  The report calls the relation between CDN and success
    statistically significant exactly when there is one degree of freedom
    and the statistic exceeds 6.635: a statistic above 3.841 but not above
    6.635 is given the p-value 0.05, which the strict test [< 0.05] does not
    count as significant. *)
Theorem significance_needs_6_635 (chiSquare df : float) :
  (Report.significant chiSquare df = true <->
   (df =? 1) = true /\ (6.635 <? chiSquare) = true) /\
  ((df =? 1) = true -> (3.841 <? chiSquare) = true ->
   (6.635 <? chiSquare) = false ->
   Stats.calculatePValue chiSquare df = 0.05 /\
   Report.significant chiSquare df = false).
Proof.
  unfold Report.significant, Stats.calculatePValue.
  assert (T : (10.828 <? chiSquare) = true -> (6.635 <? chiSquare) = true).
  { apply ltb_trans. reflexivity. }
  destruct (df =? 1); rewrite ?andb_true_r, ?andb_false_r.
  - destruct (10.828 <? chiSquare) eqn:X1.
    + rewrite (T eq_refl). split; [split; [now split|reflexivity]|].
      intros _ _ H. discriminate H.
    + destruct (6.635 <? chiSquare) eqn:X2.
      * split; [split; [now split|reflexivity]|]. intros _ _ H. discriminate H.
      * destruct (3.841 <? chiSquare) eqn:X3.
        -- split; [split; [discriminate|intros [_ H]; discriminate H]|].
           intros _ _ _. split; reflexivity.
        -- split; [|intros _ H; discriminate H].
           destruct (2.706 <? chiSquare);
             (split; [discriminate|intros [_ H]; discriminate H]).
  - split; [|intros H; discriminate H].
    split; [discriminate|intros [H _]; discriminate H].
Qed.

Lemma significance_needs_6_635_witness :
  Stats.calculatePValue 5.0 1 = 0.05 /\ Report.significant 5.0 1 = false.
Proof.
  exact (proj2 (significance_needs_6_635 5.0 1) eq_refl eq_refl eq_refl).
Defined.

End FloatOrder.

(** The mitigations suggested for a configuration do not depend on the
    CDN; each of the three configured attacks gets its own three
    mitigations, followed by one more when the strategy is 'misconfigured';
    an attack outside the configured ones gets none of its own, so its list
    is empty unless the strategy is 'misconfigured'. *)
Lemma suggestMitigation_shape (cdn cdn' attack strategy : string) :
  Report.suggestMitigation cdn attack strategy
  = Report.suggestMitigation cdn' attack strategy /\
  length (Report.suggestMitigation cdn attack strategy)
  = ((if Config.mem attack Config.attacks_keys then 3 else 0)
     + (if String.eqb strategy "misconfigured" then 1 else 0))%nat /\
  (Report.suggestMitigation cdn attack strategy = [] <->
   Config.mem attack Config.attacks_keys = false /\ strategy <> "misconfigured").
Proof.
  split; [reflexivity|].
  unfold Report.suggestMitigation, Report.push_all, Config.mem, Config.attacks_keys.
  cbn [existsb]. rewrite orb_false_r.
  destruct (String.eqb_spec attack "t1-path-sculpting") as [->|N1];
    [|destruct (String.eqb_spec attack "t2-header-manipulation") as [->|N2];
      [|destruct (String.eqb_spec attack "t4-scope-misconfig") as [->|N3]]];
    destruct (String.eqb_spec strategy "misconfigured") as [->|NS];
    cbn [String.eqb Ascii.eqb Bool.eqb app length orb Nat.add];
    (split; [reflexivity|]);
    split; try discriminate; try tauto;
    try (intros [H _]; discriminate H); try (intros [_ H]; now elim H).
Qed.

(** ** The origin's strategies and the harness *)


Lemma validation_complete (p : Config.params) :
  Config.truthy_entry Config.cdns_keys (Config.cdn p) = true ->
  Config.mem (Config.browser p) Config.browsers = true ->
  Config.truthy_entry Config.attacks_keys (Config.attack p) = true ->
  Config.mem (Config.strategy p) Config.originStrategies = true ->
  Config.validateTestParams p = Normal true.
Proof.
  unfold Config.validateTestParams, Config.collect_errors, Config.push_if.
  now intros -> -> -> ->.
Qed.


(** X8.  The origin accepts exactly the strategies the harness declares.
    When the declared strategy (the query parameter, 'proper' when it is
    absent or empty) is one of the four, the handler sets that strategy's
    own headers; any other name, also one that every object inherits such
    as 'toString', is rejected with the error that names it, and is never
    served with the fallback headers. *)
Theorem origin_strategy_headers (query_strategy : option string) :
  let strategy := Origin.declared_strategy query_strategy in
  map fst Origin.HEADER_STRATEGIES = Config.originStrategies /\
  (Config.mem strategy Config.originStrategies = true ->
   exists headers,
     Origin.assoc Origin.HEADER_STRATEGIES strategy = Some headers /\
     Origin.strategy_headers query_strategy = Normal headers) /\
  (Config.mem strategy Config.originStrategies = false ->
   Origin.strategy_headers query_strategy
   = Throw ("Invalid strategy: " ++ strategy
              ++ ". Must be one of: proper, misconfigured, missing, conflicting")).
Proof.
  cbv zeta. split; [reflexivity|].
  unfold Origin.strategy_headers, Origin.validateStrategy. cbv zeta.
  change (map fst Origin.HEADER_STRATEGIES) with Config.originStrategies.
  split; intros H; rewrite H; cbn [negb Js.bind]; [|reflexivity].
  unfold Config.mem, Config.originStrategies in H. cbn [existsb] in H.
  rewrite orb_false_r in H.
  repeat (apply orb_true_iff in H; destruct H as [H|H]);
    apply String.eqb_eq in H; rewrite H; eexists; split; reflexivity.
Qed.

Lemma origin_strategy_headers_witness :
  Origin.strategy_headers (Some "toString")
  = Throw "Invalid strategy: toString. Must be one of: proper, misconfigured, missing, conflicting"
  /\ Origin.strategy_headers None = Normal Origin.proper_headers.
Proof.
  split.
  - exact (proj2 (proj2 (origin_strategy_headers (Some "toString"))) eq_refl).
  - destruct (proj1 (proj2 (origin_strategy_headers None)) eq_refl)
      as [headers [E ->]].
    unfold Origin.proper_headers. cbv zeta in E.
    change (Origin.declared_strategy None) with "proper" in E.
    now rewrite E.
Defined.



(** X10.  [getCDNConfig] never comes back empty-handed: a configured vendor
    gets its own entry, and a vendor name that is neither configured nor
    inherited by every object silently gets the local simulator's; with no
    domain set in the environment, every domain it can yield is on the
    monitor's allowlist. *)
Theorem getCDNConfig_fallback (e : Harness.env) (cdn : string) :
  map fst (Harness.cdns e) = Config.cdns_keys /\
  (forall c, Origin.assoc (Harness.cdns e) cdn = Some c ->
             Harness.getCDNConfig e cdn = Harness.Configured c) /\
  (Config.mem cdn Config.cdns_keys = false ->
   Config.mem cdn Object_prototype_keys = false ->
   Harness.getCDNConfig e cdn = Harness.Configured Harness.local_config /\
   Origin.assoc (Harness.cdns e) "local" = Some Harness.local_config) /\
  (forall c,
     Harness.getCDNConfig (Harness.mkEnv None None None) cdn = Harness.Configured c ->
     AnomalyDetector.mem (Harness.testDomain c) allowlist = true).
Proof.
  split; [reflexivity|]. split; [|split].
  - intros c E. unfold Harness.getCDNConfig. now rewrite E.
  - intros Hown Hinh. split; [|reflexivity].
    unfold Harness.getCDNConfig. rewrite Hinh.
    rewrite assoc_absent; [reflexivity|].
    change (map fst (Harness.cdns e)) with Config.cdns_keys.
    intros Hin. unfold Config.mem in Hown.
    assert (X : existsb (String.eqb cdn) Config.cdns_keys = true).
    { apply existsb_exists. exists cdn. split; [exact Hin|apply String.eqb_refl]. }
    congruence.
  - intros c. unfold Harness.getCDNConfig, Harness.cdns.
    cbn [Harness.CF_TEST_DOMAIN Harness.FASTLY_TEST_DOMAIN
         Harness.CLOUDFRONT_TEST_DOMAIN Harness.or_default Marker.truthy_text
         Origin.assoc].
    destruct ("cloudflare" =? cdn); [intros [= <-]; reflexivity|].
    destruct ("fastly" =? cdn); [intros [= <-]; reflexivity|].
    destruct ("cloudfront" =? cdn); [intros [= <-]; reflexivity|].
    destruct ("local" =? cdn); [intros [= <-]; reflexivity|].
    destruct (Config.mem cdn Object_prototype_keys); [discriminate|].
    intros [= <-]. reflexivity.
Qed.

Lemma getCDNConfig_fallback_witness :
  Harness.getCDNConfig (Harness.mkEnv (Some "cdn.example.org") None None) "akamai"
  = Harness.Configured Harness.local_config.
Proof.
  exact (proj1 (proj1 (proj2 (proj2 (getCDNConfig_fallback
           (Harness.mkEnv (Some "cdn.example.org") None None) "akamai")))
         eq_refl eq_refl)).
Defined.

Lemma parse_raw_string r fields k v :
  In r Spec.rule_table ->
  Spec.case_distinct fields ->
  In (k, VStr v) fields ->
  toLowerCase k = Spec.signal_header r ->
  get (parseCDNCacheStatus (VObj fields) (Spec.vendor r)) "raw" = VStr v.
Proof.
  intros Hr Hnd Hin Hk.
  assert (L : lookup (normalizeHeaders (VObj fields)) (Spec.signal_header r)
              = VStr v).
  { rewrite <- Hk. apply lookup_present; try assumption.
    rewrite Hk. simpl in Hr.
    destruct Hr as [<-|[<-|[<-|[<-|[]]]]]; discriminate. }
  simpl in Hr.
  destruct Hr as [<-|[<-|[<-|[<-|[]]]]]; cbn [Spec.vendor Spec.signal_header] in *.
  - rewrite parse_cloudflare. cbv zeta. rewrite L. reflexivity.
  - rewrite (parse_fastly_string _ _ L). reflexivity.
  - rewrite (parse_cloudfront_string _ _ L). reflexivity.
  - rewrite parse_local. cbv zeta. rewrite L. reflexivity.
Qed.

(** X11.  For every configured CDN, the header the interpreter reads is the
    first of the cache headers the configuration lists for it: on a header
    map without case-insensitive duplicate keys that carries the string [v]
    under that name, in any letter case, the interpreter returns [v] as the
    raw value. *)
Theorem interpreter_reads_first_cache_header
  (e : Harness.env) (cdn : string) (c : Harness.cdn_config)
  (fields : list (string * value)) (k v : string) :
  In (cdn, c) (Harness.cdns e) ->
  Spec.case_distinct fields ->
  In (k, VStr v) fields ->
  hd_error (Harness.cacheHeaders c) = Some (toLowerCase k) ->
  get (parseCDNCacheStatus (VObj fields) cdn) "raw" = VStr v.
Proof.
  intros Hc Hnd Hin Hk. unfold Harness.cdns in Hc. cbn [In] in Hc.
  destruct Hc as [[= <- <-]|[[= <- <-]|[[= <- <-]|[[= <- <-]|[]]]]];
    cbn [Harness.cacheHeaders hd_error] in Hk; injection Hk as Hk;
    symmetry in Hk.
  - apply (parse_raw_string
             (Spec.mkRule "cloudflare" "cf-cache-status" Spec.Exact "HIT" "MISS")
             fields k v); try assumption. simpl; tauto.
  - apply (parse_raw_string
             (Spec.mkRule "fastly" "x-cache" Spec.Contains "HIT" "MISS")
             fields k v); try assumption. simpl; tauto.
  - apply (parse_raw_string
             (Spec.mkRule "cloudfront" "x-cache" Spec.Contains "Hit" "Miss")
             fields k v); try assumption. simpl; tauto.
  - apply (parse_raw_string
             (Spec.mkRule "local" "x-cache-status" Spec.Exact "HIT" "MISS")
             fields k v); try assumption. simpl; tauto.
Qed.

Lemma interpreter_reads_first_cache_header_witness :
  get (parseCDNCacheStatus
         (VObj [ ("X-Cache", VStr "HIT, MISS"); ("Age", VStr "12");
                 ("CF-Ray", VStr "8a1") ]) "cloudfront") "raw"
  = VStr "HIT, MISS".
Proof.
  refine (interpreter_reads_first_cache_header (Harness.mkEnv None None None)
            "cloudfront"
            (Harness.mkCdn "aws-test.yourdomain.com"
               [ "x-cache"; "age"; "x-amz-cf-id" ] [ "default"; "permissive" ])
            _ "X-Cache" "HIT, MISS" _ case_distinct_example
            (or_introl eq_refl) eq_refl).
  simpl. tauto.
Defined.

(** ** Marker extraction *)

Lemma truthy_text_nonempty x m : Marker.truthy_text x = Some m -> m <> "".
Proof.
  destruct x as [s|]; simpl; [|discriminate].
  destruct (String.eqb_spec s "") as [->|ne]; [discriminate|].
  now intros [= <-].
Qed.

Lemma first_group_nonempty ps body m :
  Marker.first_group ps body = Some m -> m <> "".
Proof.
  induction ps as [|p ps IH]; simpl; [discriminate|].
  destruct (Marker.truthy_text (Marker.regex_group p body)) as [r|] eqn:E.
  - intros [= <-]. exact (truthy_text_nonempty _ _ E).
  - exact IH.
Qed.

Lemma extractMarkerFromBody_nonempty page body m :
  Marker.extractMarkerFromBody page body = Some m -> m <> "".
Proof.
  unfold Marker.extractMarkerFromBody.
  destruct (negb (truthy body) || negb (typeof body =? "string"));
    [discriminate|].
  destruct body as [ | | b | n | text | o]; try discriminate.
  destruct page as [pg|].
  - destruct (Marker.truthy_text (Marker.marker_text pg)) as [r|] eqn:E1.
    + intros [= <-]. exact (truthy_text_nonempty _ _ E1).
    + destruct (Marker.truthy_text (Marker.meta_content pg)) as [r|] eqn:E2.
      * intros [= <-]. exact (truthy_text_nonempty _ _ E2).
      * apply first_group_nonempty.
  - apply first_group_nonempty.
Qed.

(** X12.  Whatever the page and the body of the victim response, the marker
    the harness extracts is [null] or a non-empty string; so for the trial
    classified with it, success is [true] exactly when the interpreter's
    result has [hit = true] and the attacker body contains the extracted
    marker. *)
Theorem extracted_marker_classifies
  (page : option Marker.page) (victimBody attackerHeaders : value)
  (cdn attackerBody : string) :
  let victimMarker := Marker.extractMarkerFromBody page victimBody in
  let trial := Trial.classify attackerHeaders cdn victimMarker attackerBody in
  victimMarker <> Some "" /\
  (Trial.success trial = VBool true <->
   get (parseCDNCacheStatus attackerHeaders cdn) "hit" = VBool true /\
   exists m, victimMarker = Some m /\ includes attackerBody m = true).
Proof.
  cbv zeta.
  assert (N : Marker.extractMarkerFromBody page victimBody <> Some "").
  { intros E. now apply (extractMarkerFromBody_nonempty _ _ _ E). }
  split; [exact N|].
  unfold Trial.classify. cbn [Trial.success]. unfold Trial.attackSuccess.
  rewrite and_true_iff, hit_truthy_iff.
  now rewrite (containsVictimData_true_iff _ _ N).
Qed.

Lemma strip_prefix_app l s : Marker.strip_prefix l (l ++ s) = Some s.
Proof.
  induction l as [|a l IH]; simpl; [reflexivity|].
  now rewrite Ascii.eqb_refl.
Qed.

Lemma strip_prefix_none l s : prefix l s = false -> Marker.strip_prefix l s = None.
Proof.
  revert s. induction l as [|a l IH]; intros s H.
  - destruct s; discriminate H.
  - destruct s as [|b s]; [reflexivity|].
    cbn [prefix] in H. cbn [Marker.strip_prefix].
    destruct (ascii_dec a b) as [->|ne].
    + rewrite Ascii.eqb_refl. now apply IH.
    + apply Ascii.eqb_neq in ne. now rewrite ne.
Qed.

Lemma append_assoc (a b c : string) : (a ++ b) ++ c = a ++ (b ++ c).
Proof. induction a as [|x a IH]; simpl; [reflexivity|now rewrite IH]. Qed.

Lemma append_empty_r (a : string) : a ++ "" = a.
Proof. induction a as [|x a IH]; simpl; [reflexivity|now rewrite IH]. Qed.

(** The group takes the whole run [m] when what follows cannot extend it and
    the rest of the pattern matches there. *)
Lemma capture_run p k m :
  forall captured rest,
    m <> "" ->
    forallb p (list_ascii_of_string m) = true ->
    (forall c r, rest = String c r -> p c = false) ->
    k rest = true ->
    Marker.capture p k captured (m ++ rest) = Some (captured ++ m).
Proof.
  induction m as [|a m IH]; intros captured rest Hne Hall Hstop Hk;
    [now elim Hne|].
  cbn [list_ascii_of_string forallb] in Hall.
  apply andb_true_iff in Hall. destruct Hall as [Ha Hall].
  cbn [append Marker.capture]. rewrite Ha.
  destruct m as [|b m].
  - cbn [append].
    assert (S : Marker.capture p k (captured ++ String a "") rest = None).
    { destruct rest as [|c rest]; [reflexivity|].
      cbn [Marker.capture]. now rewrite (Hstop c rest eq_refl). }
    now rewrite S, Hk.
  - rewrite (IH (captured ++ String a "") rest); try assumption; [|discriminate].
    f_equal. rewrite append_assoc. reflexivity.
Qed.

Lemma has_char_forallb c m :
  Marker.has_char c m = false ->
  forallb (Marker.other_than c) (list_ascii_of_string m) = true.
Proof.
  unfold Marker.has_char, Marker.other_than.
  induction (list_ascii_of_string m) as [|a l IH]; simpl; [reflexivity|].
  intros H. apply orb_false_iff in H. destruct H as [H1 H2].
  rewrite Ascii.eqb_sym, H1. simpl. now apply IH.
Qed.

(** A pattern that opens with a literal finds nothing before the first
    occurrence of the literal. *)
Lemma regex_group_after_first_occurrence l rest_atoms pre :
  forall s,
    Marker.first_index l (pre ++ s) = Some (String.length pre) ->
    Marker.regex_group (Marker.Lit l :: rest_atoms) (pre ++ s)
    = Marker.regex_group (Marker.Lit l :: rest_atoms) s.
Proof.
  induction pre as [|a pre IH]; intros s H; [reflexivity|].
  cbn [append String.length] in H |- *.
  cbn [Marker.first_index] in H.
  destruct (prefix l (String a (pre ++ s))) eqn:P; [discriminate H|].
  destruct (Marker.first_index l (pre ++ s)) as [n|] eqn:F; [|discriminate H].
  injection H as H. subst n.
  cbn [Marker.regex_group Marker.match_here].
  rewrite (strip_prefix_none _ _ P).
  now apply IH.
Qed.

(** X13.  The marker the origin embeds in a page is recovered: when the
    first opening of a test-marker meta tag in the body ([Marker.meta_open])
    is followed by a non-empty text [m] without double quote and a closing
    double quote, and the page queries yield nothing (or there is no page),
    the extracted marker is [m]. *)
Theorem meta_marker_round_trip
  (page : option Marker.page) (pre m post : string) :
  let body := pre ++ Marker.meta_open ++ m ++ Marker.dq ++ post in
  (forall pg, page = Some pg ->
     Marker.truthy_text (Marker.marker_text pg) = None /\
     Marker.truthy_text (Marker.meta_content pg) = None) ->
  Marker.first_index Marker.meta_open body = Some (String.length pre) ->
  m <> "" ->
  Marker.has_char Marker.dq_char m = false ->
  Marker.extractMarkerFromBody page (VStr body) = Some m.
Proof.
  intros body Hpage Hfirst Hne Hdq.
  assert (G : Marker.regex_group
                [ Marker.Lit Marker.meta_open; Marker.Group Marker.dq_char;
                  Marker.Lit Marker.dq ] body = Some m).
  { subst body. rewrite regex_group_after_first_occurrence by exact Hfirst.
    assert (M : Marker.match_here
                  [ Marker.Lit Marker.meta_open; Marker.Group Marker.dq_char;
                    Marker.Lit Marker.dq ]
                  (Marker.meta_open ++ m ++ Marker.dq ++ post) = Some m).
    { cbn [Marker.match_here]. rewrite strip_prefix_app.
      change (Marker.dq ++ post) with (String Marker.dq_char post).
      rewrite (capture_run _ _ m "" (String Marker.dq_char post)); try assumption.
      - reflexivity.
      - now apply has_char_forallb.
      - intros c r [= <- _]. unfold Marker.other_than.
        now rewrite Ascii.eqb_refl.
      - cbn [Marker.match_rest Marker.strip_prefix Marker.dq].
        unfold Marker.dq_char. now rewrite Ascii.eqb_refl. }
    destruct (Marker.meta_open ++ m ++ Marker.dq ++ post);
      cbn [Marker.regex_group]; now rewrite M. }
  assert (B : body <> "").
  { intros E. rewrite E in G. discriminate G. }
  unfold Marker.extractMarkerFromBody.
  assert (T : negb (truthy (VStr body)) || negb (typeof (VStr body) =? "string")
              = false).
  { cbn [truthy typeof]. apply String.eqb_neq in B. now rewrite B. }
  rewrite T.
  assert (P : match page with
              | Some pg =>
                  match Marker.truthy_text (Marker.marker_text pg) with
                  | Some marker => Some marker
                  | None => Marker.truthy_text (Marker.meta_content pg)
                  end
              | None => None
              end = None).
  { destruct page as [pg|]; [|reflexivity].
    destruct (Hpage pg eq_refl) as [-> ->]. reflexivity. }
  rewrite P. unfold Marker.patterns. cbn [Marker.first_group].
  rewrite G. cbn [Marker.truthy_text].
  apply String.eqb_neq in Hne. now rewrite Hne.
Qed.

Lemma meta_marker_round_trip_witness :
  Marker.extractMarkerFromBody None
    (VStr ("<html><head><title>Account Dashboard - /account</title>"
           ++ Marker.meta_open ++ "marker-1700000000000-k3j9x2m1q"
           ++ Marker.dq ++ "></head><body><code id=marker>x</code></body></html>"))
  = Some "marker-1700000000000-k3j9x2m1q".
Proof.
  apply (meta_marker_round_trip None
           "<html><head><title>Account Dashboard - /account</title>"
           "marker-1700000000000-k3j9x2m1q"
           "></head><body><code id=marker>x</code></body></html>").
  - discriminate.
  - reflexivity.
  - discriminate.
  - reflexivity.
Defined.

(** The JSON the API endpoints answer with is read by the third pattern. *)
Example json_marker_extracted :
  Marker.extractMarkerFromBody None
    (VStr ("{" ++ Marker.dq ++ "path" ++ Marker.dq ++ ":" ++ Marker.dq
           ++ "/api/user" ++ Marker.dq ++ "," ++ Marker.dq ++ "marker"
           ++ Marker.dq ++ ": " ++ Marker.dq ++ "marker-17-abc" ++ Marker.dq
           ++ "}"))
  = Some "marker-17-abc".
Proof. reflexivity. Qed.

(** ** The session cookie, from the harness to the origin *)

Lemma has_char_app c a b :
  Marker.has_char c (a ++ b) = Marker.has_char c a || Marker.has_char c b.
Proof.
  unfold Marker.has_char.
  induction a as [|x a IH]; simpl; [reflexivity|].
  now rewrite IH, orb_assoc.
Qed.

Lemma digits_have_no c d :
  (48 <=? nat_of_ascii c)%nat && (nat_of_ascii c <=? 57)%nat = false ->
  Marker.has_char c (NilEmpty.string_of_uint d) = false.
Proof.
  intros H. unfold Marker.has_char.
  induction d as [|d IH|d IH|d IH|d IH|d IH|d IH|d IH|d IH|d IH|d IH];
    cbn [NilEmpty.string_of_uint list_ascii_of_string existsb];
    [reflexivity|..]; rewrite IH, orb_false_r;
    apply Ascii.eqb_neq; intros ->; discriminate H.
Qed.

Lemma last_segment_plain current b :
  Marker.has_char "-" b = false -> Origin.last_segment current b = current ++ b.
Proof.
  unfold Marker.has_char. revert current.
  induction b as [|a b IH]; intros current; cbn [Origin.last_segment].
  - now rewrite append_empty_r.
  - cbn [list_ascii_of_string existsb]. intros H.
    apply orb_false_iff in H. destruct H as [Ha Hb].
    rewrite Ascii.eqb_sym, Ha. rewrite (IH _ Hb), append_assoc. reflexivity.
Qed.

Lemma last_segment_after_dash x b :
  forall current,
    Origin.last_segment current (x ++ String "-" b) = Origin.last_segment "" b.
Proof.
  induction x as [|a x IH]; intros current; cbn [append Origin.last_segment].
  - reflexivity.
  - destruct (Ascii.eqb a "-"); apply IH.
Qed.

Lemma regex_group_here atoms s r :
  Marker.match_here atoms s = Some r -> Marker.regex_group atoms s = Some r.
Proof. intros H. destruct s; cbn [Marker.regex_group]; now rewrite H. Qed.

(** X14.  The session cookie the harness installs authenticates the victim
    at the origin, and the user the origin derives from it is named after
    the time the cookie was created, not after the user id the cookie was
    created for: for a user id without ';', the origin's user id is
    'user-' followed by that time. *)
Theorem session_cookie_round_trip (now : nat) (domain userId : string) :
  Marker.has_char ";" userId = false ->
  let c := Harness.createAuthCookie now domain userId in
  Origin.simulateAuth (Some (Harness.cookie_header c))
  = Origin.mkUser ("user-" ++ show now) (Some (Harness.value c)) true.
Proof.
  intros Hu c. subst c.
  unfold Harness.cookie_header, Harness.createAuthCookie.
  cbn [Harness.name Harness.value].
  set (v := "session-" ++ userId ++ "-" ++ show now).
  assert (Hv : Marker.has_char ";" v = false).
  { subst v. rewrite !has_char_app, Hu.
    unfold show. now rewrite digits_have_no. }
  assert (Nv : v <> "") by (subst v; discriminate).
  assert (C : Marker.capture (Marker.other_than ";") (Marker.match_rest []) "" v
              = Some v).
  { rewrite <- (append_empty_r v) at 1.
    rewrite (capture_run _ _ v "" ""); try assumption.
    - reflexivity.
    - now apply has_char_forallb.
    - discriminate.
    - reflexivity. }
  assert (G : Marker.regex_group [ Marker.Lit "session="; Marker.Group ";" ]
                ("session" ++ "=" ++ v) = Some v).
  { apply regex_group_here.
    change ("session" ++ "=" ++ v) with ("session=" ++ v).
    cbn [Marker.match_here]. rewrite strip_prefix_app. exact C. }
  unfold Origin.simulateAuth. rewrite G. cbn [Marker.truthy_text].
  apply String.eqb_neq in Nv. rewrite Nv.
  f_equal. f_equal. subst v.
  change ("session-" ++ userId ++ "-" ++ show now)
    with ("session-" ++ (userId ++ String "-" (show now))).
  rewrite <- append_assoc.
  rewrite last_segment_after_dash.
  rewrite last_segment_plain; [reflexivity|].
  unfold show. now apply digits_have_no.
Qed.

Lemma session_cookie_round_trip_witness :
  Origin.simulateAuth (Some "session=session-test-user-1700")
  = Origin.mkUser "user-1700" (Some "session-test-user-1700") true.
Proof.
  exact (session_cookie_round_trip 1700 "cf-test.yourdomain.com" "test-user"
           eq_refl).
Defined.

(** Without a session cookie the request is anonymous. *)
Example no_session_cookie_is_anonymous :
  Origin.simulateAuth (Some "theme=dark; lang=en")
  = Origin.mkUser "anonymous" None false
  /\ Origin.simulateAuth None = Origin.mkUser "anonymous" None false.
Proof. split; reflexivity. Qed.

(** ** The request logger *)



(** ** What the extracted marker is, and the served copy *)

Lemma prefix_empty s : prefix "" s = true.
Proof. now destruct s. Qed.

Lemma prefix_includes x s : prefix x s = true -> includes s x = true.
Proof. intros H. destruct s; cbn [includes]; now rewrite H. Qed.

Lemma includes_cons a s r : includes s r = true -> includes (String a s) r = true.
Proof. intros H. cbn [includes]. rewrite H. now destruct (prefix r (String a s)). Qed.

Lemma includes_app x s r : includes s r = true -> includes (x ++ s) r = true.
Proof.
  intros H. induction x as [|a x IH]; [exact H|].
  cbn [append]. now apply includes_cons.
Qed.

Lemma strip_prefix_some l s s' : Marker.strip_prefix l s = Some s' -> s = l ++ s'.
Proof.
  revert s. induction l as [|a l IH]; intros s; cbn [Marker.strip_prefix].
  - now intros [= ->].
  - destruct s as [|b s]; [discriminate|].
    destruct (Ascii.eqb_spec a b) as [->|]; [|discriminate].
    intros H. cbn [append]. now rewrite (IH _ H).
Qed.

Lemma capture_prefix p k s :
  forall captured r,
    Marker.capture p k captured s = Some r ->
    exists x, r = captured ++ x /\ prefix x s = true.
Proof.
  induction s as [|a s IH]; intros captured r; cbn [Marker.capture];
    [discriminate|].
  destruct (p a); [|discriminate].
  destruct (Marker.capture p k (captured ++ String a "") s) as [r'|] eqn:E.
  - intros [= <-]. destruct (IH _ _ E) as [x [-> Px]].
    exists (String a x). split; [now rewrite append_assoc|].
    cbn [prefix]. destruct (ascii_dec a a) as [_|ne]; [exact Px|now elim ne].
  - destruct (k s); [|discriminate]. intros [= <-].
    exists (String a ""). split; [reflexivity|].
    cbn [prefix]. destruct (ascii_dec a a) as [_|ne];
      [apply prefix_empty|now elim ne].
Qed.

Lemma star_find_suffix p k s r :
  Marker.star_find p k s = Some r ->
  exists x s', s = x ++ s' /\ k s' = Some r.
Proof.
  induction s as [|a s IH]; cbn [Marker.star_find].
  - intros H. now exists "", "".
  - destruct (p a).
    + destruct (Marker.star_find p k s) as [r'|] eqn:E.
      * intros [= <-]. destruct (IH eq_refl) as [x [s' [-> K]]].
        now exists (String a x), s'.
      * intros H. now exists "", (String a s).
    + intros H. now exists "", (String a s).
Qed.

Lemma match_here_includes atoms :
  forall s r, Marker.match_here atoms s = Some r -> includes s r = true.
Proof.
  induction atoms as [|[l| |c|c] rest IH]; intros s r; cbn [Marker.match_here].
  - discriminate.
  - destruct (Marker.strip_prefix l s) as [s'|] eqn:E; [|discriminate].
    intros H. rewrite (strip_prefix_some _ _ _ E).
    apply includes_app. now apply IH.
  - intros H. destruct (star_find_suffix _ _ _ _ H) as [x [s' [-> K]]].
    apply includes_app. now apply IH.
  - intros H. destruct (star_find_suffix _ _ _ _ H) as [x [s' [-> K]]].
    apply includes_app. now apply IH.
  - intros H. destruct (capture_prefix _ _ _ _ _ H) as [x [-> Px]].
    now apply prefix_includes.
Qed.

Lemma regex_group_includes atoms s r :
  Marker.regex_group atoms s = Some r -> includes s r = true.
Proof.
  induction s as [|a s IH]; cbn [Marker.regex_group].
  - destruct (Marker.match_here atoms "") as [r'|] eqn:E; [|discriminate].
    intros [= <-]. now apply (match_here_includes atoms).
  - destruct (Marker.match_here atoms (String a s)) as [r'|] eqn:E.
    + intros [= <-]. now apply (match_here_includes atoms).
    + intros H. apply includes_cons. now apply IH.
Qed.

Lemma first_group_includes ps body m :
  Marker.first_group ps body = Some m -> includes body m = true.
Proof.
  induction ps as [|p ps IH]; cbn [Marker.first_group]; [discriminate|].
  destruct (Marker.regex_group p body) as [r|] eqn:E; cbn [Marker.truthy_text].
  - destruct (r =? ""); [exact IH|].
    intros [= <-]. now apply (regex_group_includes p).
  - exact IH.
Qed.

(** X16.  A marker extracted from the raw body (the page queries yielding
    nothing, or there being no page) is a piece of that body.  So when the
    attacker is served the very body the victim received, victim data counts
    as retrieved, and the trial is classified successful as soon as the
    interpreter reports a hit. *)
Theorem served_copy_is_detected
  (page : option Marker.page) (body m cdn : string) (attackerHeaders : value) :
  (forall pg, page = Some pg ->
     Marker.truthy_text (Marker.marker_text pg) = None /\
     Marker.truthy_text (Marker.meta_content pg) = None) ->
  Marker.extractMarkerFromBody page (VStr body) = Some m ->
  includes body m = true /\
  Trial.containsVictimData (Some m) body = VBool true /\
  (get (parseCDNCacheStatus attackerHeaders cdn) "hit" = VBool true ->
   Trial.success (Trial.classify attackerHeaders cdn (Some m) body) = VBool true).
Proof.
  intros Hpage H.
  pose proof (extractMarkerFromBody_nonempty _ _ _ H) as Hne.
  assert (I : includes body m = true).
  { unfold Marker.extractMarkerFromBody in H.
    destruct (negb (truthy (VStr body)) || negb (typeof (VStr body) =? "string"));
      [discriminate|].
    destruct page as [pg|].
    - destruct (Hpage pg eq_refl) as [E1 E2]. rewrite E1, E2 in H.
      now apply (first_group_includes Marker.patterns).
    - now apply (first_group_includes Marker.patterns). }
  assert (C : Trial.containsVictimData (Some m) body = VBool true).
  { rewrite containsVictimData_marker by exact Hne. now rewrite I. }
  split; [exact I|]. split; [exact C|].
  intros Hhit. unfold Trial.classify. cbn [Trial.success].
  unfold Trial.attackSuccess. apply and_true_iff.
  split; [now apply hit_truthy_iff|exact C].
Qed.

Lemma served_copy_is_detected_witness :
  Trial.success
    (Trial.classify (VObj [ ("x-cache-status", VStr "HIT") ]) "local"
       (Some "marker-17-abc")
       "<p>Marker: <code id=marker>marker-17-abc</code></p><script>window.trialMarker = 'marker-17-abc';</script>")
  = VBool true.
Proof.
  refine (proj2 (proj2 (served_copy_is_detected
            (Some (Marker.mkPage None (Some "")))
            "<p>Marker: <code id=marker>marker-17-abc</code></p><script>window.trialMarker = 'marker-17-abc';</script>"
            "marker-17-abc" "local" (VObj [ ("x-cache-status", VStr "HIT") ]) _ _)) _);
    try reflexivity.
  intros pg [= <-]. split; reflexivity.
Defined.

(** ** The status the interpreter returns *)

Lemma parse_status_string r fields k v :
  In r Spec.rule_table ->
  Spec.case_distinct fields ->
  In (k, VStr v) fields ->
  toLowerCase k = Spec.signal_header r ->
  get (parseCDNCacheStatus (VObj fields) (Spec.vendor r)) "status"
  = Js.or (VStr v) (VStr "MISSING_HEADER").
Proof.
  intros Hr Hnd Hin Hk.
  assert (L : lookup (normalizeHeaders (VObj fields)) (Spec.signal_header r)
              = VStr v).
  { rewrite <- Hk. apply lookup_present; try assumption.
    rewrite Hk. simpl in Hr.
    destruct Hr as [<-|[<-|[<-|[<-|[]]]]]; discriminate. }
  simpl in Hr.
  destruct Hr as [<-|[<-|[<-|[<-|[]]]]]; cbn [Spec.vendor Spec.signal_header] in *.
  - rewrite parse_cloudflare. cbv zeta. rewrite L. reflexivity.
  - rewrite (parse_fastly_string _ _ L). reflexivity.
  - rewrite (parse_cloudfront_string _ _ L). reflexivity.
  - rewrite parse_local. cbv zeta. rewrite L. reflexivity.
Qed.

(** X17.  For a supported vendor the status of the result is the text of the
    signal header itself, not a normalized verdict: on a header map without
    case-insensitive duplicate keys whose signal header carries the string
    [v], the status is [v], and MISSING_HEADER when [v] is empty although
    the header is present. *)
Theorem status_is_header_text
  (r : Spec.rule) (fields : list (string * value)) (k v : string) :
  In r Spec.rule_table ->
  Spec.case_distinct fields ->
  In (k, VStr v) fields ->
  toLowerCase k = Spec.signal_header r ->
  get (parseCDNCacheStatus (VObj fields) (Spec.vendor r)) "status"
  = VStr (if v =? "" then "MISSING_HEADER" else v).
Proof.
  intros Hr Hnd Hin Hk.
  rewrite (parse_status_string r fields k v Hr Hnd Hin Hk).
  unfold Js.or. cbn [truthy]. now destruct (v =? "").
Qed.

Lemma status_is_header_text_witness :
  get (parseCDNCacheStatus
         (VObj [ ("X-Cache", VStr "Hit from cloudfront") ]) "cloudfront") "status"
  = VStr "Hit from cloudfront".
Proof.
  refine (status_is_header_text
            (Spec.mkRule "cloudfront" "x-cache" Spec.Contains "Hit" "Miss")
            [ ("X-Cache", VStr "Hit from cloudfront") ]
            "X-Cache" "Hit from cloudfront" _ _ (or_introl eq_refl) eq_refl).
  - simpl. tauto.
  - unfold Spec.case_distinct. simpl. repeat constructor. simpl. tauto.
Defined.

Lemma own_set_own_cases fields k v k' x :
  own (set_own fields k v) k' = Some x -> x = v \/ own fields k' = Some x.
Proof.
  destruct (string_dec k k') as [<-|ne].
  - rewrite own_set_own_same. intros [= <-]. now left.
  - rewrite own_set_own_other by exact ne. now right.
Qed.

(** On a map whose values are strings the normalized map holds strings only
    and keeps its prototype. *)
Lemma normalize_string_valued fields name :
  (forall k v, In (k, v) fields -> exists s, v = VStr s) ->
  lookup (normalizeHeaders (VObj fields)) name = VUndefined \/
  exists s, lookup (normalizeHeaders (VObj fields)) name = VStr s.
Proof.
  intros Hs. rewrite normalizeHeaders_object.
  assert (I : forall ks acc,
            (forall k, In k ks -> exists s, get (VObj fields) k = VStr s) ->
            (forall k v, own (own_props acc) k = Some v -> exists s, v = VStr s) ->
            proto acc = ProtoDefault ->
            let n := fold_left
                       (fun normalized key =>
                          set_prop normalized (toLowerCase key)
                                   (get (VObj fields) key)) ks acc in
            (forall k v, own (own_props n) k = Some v -> exists s, v = VStr s) /\
            proto n = ProtoDefault).
  { induction ks as [|k0 ks IH]; intros acc Hks Hown Hproto; cbn [fold_left].
    - now split.
    - apply IH.
      + intros k Hk. apply Hks. now right.
      + destruct (Hks k0 (or_introl eq_refl)) as [s0 G]. rewrite G.
        unfold set_prop.
        destruct (toLowerCase k0 =? "__proto__"); [exact Hown|].
        cbn [own_props]. intros k v Hv.
        destruct (own_set_own_cases _ _ _ _ _ Hv) as [->|Hv'];
          [now exists s0|now apply (Hown k)].
      + destruct (Hks k0 (or_introl eq_refl)) as [s0 G]. rewrite G.
        unfold set_prop.
        destruct (toLowerCase k0 =? "__proto__"); exact Hproto. }
  destruct (I (map fst fields) empty) as [Hown Hproto].
  - intros k Hk. apply in_map_iff in Hk. destruct Hk as [[k' v] [E Hin]].
    simpl in E. subst k'. simpl.
    destruct (own fields k) as [x|] eqn:O.
    + apply own_In in O. apply (Hs k x O).
    + exfalso. clear - Hin O.
      induction fields as [|[k0 v0] rest IH]; [contradiction|].
      simpl in O. destruct (String.eqb_spec k0 k) as [->|ne]; [discriminate|].
      destruct Hin as [[= E _]|Hin]; [congruence|now apply IH].
  - discriminate.
  - reflexivity.
  - cbv zeta in Hown, Hproto. unfold lookup. rewrite Hproto.
    destruct (own _ name) as [v|] eqn:O; [|now left].
    right. destruct (Hown _ _ O) as [s ->]. now exists s.
Qed.

(** X18.  On a header map whose values are all strings the interpreter
    never ends in its exception handler: whatever the vendor, the result is
    not the PARSE_ERROR object. *)
Theorem string_headers_never_parse_error
  (fields : list (string * value)) (cdn message : string) :
  (forall k v, In (k, v) fields -> exists s, v = VStr s) ->
  parseCDNCacheStatus (VObj fields) cdn
  <> VObj [ ("status", VStr "PARSE_ERROR"); ("raw", VNull);
            ("error", VStr message) ].
Proof.
  intros Hs. unfold parseCDNCacheStatus. rewrite guard_object. cbv zeta.
  destruct (cdn =? "cloudflare"); [discriminate|].
  destruct (cdn =? "fastly").
  { destruct (normalize_string_valued fields "x-cache" Hs) as [E|[s E]];
      rewrite E; cbn [optional_includes Js.bind]; discriminate. }
  destruct (cdn =? "cloudfront").
  { destruct (normalize_string_valued fields "x-cache" Hs) as [E|[s E]];
      rewrite E; cbn [optional_includes Js.bind]; discriminate. }
  destruct (cdn =? "local"); discriminate.
Qed.

Lemma string_headers_never_parse_error_witness :
  parseCDNCacheStatus (VObj [ ("X-Cache", VStr "ERROR") ]) "fastly"
  <> VObj [ ("status", VStr "PARSE_ERROR"); ("raw", VNull);
            ("error", VStr "xCache?.includes is not a function") ].
Proof.
  apply string_headers_never_parse_error.
  intros k v [[= <- <-]|[]]. now exists "ERROR".
Defined.
